(** * Zotion: the Zotero-to-Notion sync engine of [zotion.py]

    A shallow embedding of the sync engine (date normalisation, author
    parsing, title index, schema lookup, push loop) and the properties
    its specification states about it.

    Modelling conventions.
    - A Python [str] is a Rocq [string]: a sequence of code points below
      256.  On these, [\d] of the regular expressions of [_strptime] is
      exactly ['0'..'9'] and [str.strip] removes the code points listed in
      [is_space].
    - A Python value that is either [None] or a [str] is an
      [option string].
    - A call that may raise returns a [result]; the network is an explicit
      world threaded through the calls, with a trace of the requests sent.
    - [datetime.strptime] and [datetime.strftime] are library functions.
      [strptime] is modelled after [Lib/_strptime.py].  [strftime] is
      the C library's: with glibc, [%Y] prints the year in decimal
      without padding ([999] for the year 999), [%m] and [%d] print two
      digits. *)

From Stdlib Require Import Ascii.
From stdpp Require Import gmap strings list fin_maps pretty.

Local Open Scope Z_scope.

(** ** Exceptions and results *)

(** What a response carries when an HTTP error is raised from it
    ([e.response.text]). *)
Record response_info := { resp_text : string }.

Inductive exn :=
| ValueError (msg : string)
| AttributeError (msg : string)
| RequestException (msg : string) (response : option response_info).

Inductive result (A : Type) :=
| Returned (a : A)
| Raised (e : exn).
Arguments Returned {A} a.
Arguments Raised {A} e.

Global Instance result_ret : MRet result := λ A a, Returned a.
Global Instance result_bind : MBind result := λ A B k r,
  match r with
  | Returned a => k a
  | Raised e => Raised e
  end.

(** ** Python string operations *)

(** [str.isspace] on code points below 256: the ASCII table of
    [_Py_ascii_whitespace] (9..13, 28..32) and U+0085, U+00A0. *)
Definition is_space (c : ascii) : bool :=
  let n := nat_of_ascii c in
  (((9 <=? n) && (n <=? 13)) || ((28 <=? n) && (n <=? 32))
   || (n =? 133) || (n =? 160))%nat.

Definition is_digit (c : ascii) : bool :=
  let n := nat_of_ascii c in ((48 <=? n) && (n <=? 57))%nat.

Definition digit_val (c : ascii) : Z := Z.of_nat (nat_of_ascii c) - 48.

Definition ascii_eqb (a b : ascii) : bool := bool_decide (a = b).

Definition str_empty (s : string) : bool :=
  match s with EmptyString => true | String _ _ => false end.

Fixpoint lstrip (s : string) : string :=
  match s with
  | EmptyString => EmptyString
  | String c s' => if is_space c then lstrip s' else s
  end.

Fixpoint rstrip (s : string) : string :=
  match s with
  | EmptyString => EmptyString
  | String c s' =>
      let r := rstrip s' in
      if is_space c && str_empty r then EmptyString else String c r
  end.

(** [s.strip()] *)
Definition strip (s : string) : string := rstrip (lstrip s).

(** [sep in s] for a one-character [sep] *)
Fixpoint contains (sep : ascii) (s : string) : bool :=
  match s with
  | EmptyString => false
  | String c s' => ascii_eqb c sep || contains sep s'
  end.

(** [s.split(sep)] for a one-character [sep]: never the empty list. *)
Fixpoint split (sep : ascii) (s : string) : list string :=
  match s with
  | EmptyString => [EmptyString]
  | String c s' =>
      if ascii_eqb c sep then EmptyString :: split sep s'
      else match split sep s' with
           | [] => [String c EmptyString]
           | w :: ws => String c w :: ws
           end
  end.

(** [s.split(sep, 1)]: at most one cut, at the first separator. *)
Fixpoint split1 (sep : ascii) (s : string) : list string :=
  match s with
  | EmptyString => [EmptyString]
  | String c s' =>
      if ascii_eqb c sep then [EmptyString; s']
      else match split1 sep s' with
           | [] => [String c EmptyString]
           | w :: ws => String c w :: ws
           end
  end.

(** [s.startswith(p)] *)
Fixpoint startswith (p s : string) : bool :=
  match p, s with
  | EmptyString, _ => true
  | String a p', String b s' => ascii_eqb a b && startswith p' s'
  | String _ _, EmptyString => false
  end.

(** [sep.join(l)] *)
Fixpoint join (sep : string) (l : list string) : string :=
  match l with
  | [] => EmptyString
  | [x] => x
  | x :: xs => x +:+ sep +:+ join sep xs
  end.

(** Truth value of a value that is [None] or a [str]. *)
Definition truthy (v : option string) : bool :=
  match v with
  | None => false
  | Some s => negb (str_empty s)
  end.

(** [str(v)] inside an f-string. *)
Definition str_of (v : option string) : string :=
  match v with None => "None" | Some s => s end.

(** ** Dates: [datetime.strptime] and [datetime.strftime] *)

(** A [datetime] whose time of day is midnight. *)
Record datetime := { year : Z; month : Z; day : Z }.

Inductive directive := DirY | Dirm | Dird.

Inductive fmt_item :=
| FDir (d : directive)
| FLit (c : ascii).

(** The format string cut into directives and literal characters.  Only
    the directives the program uses are known; any other one is a bad
    directive, as it is for [_strptime] when the letter is unknown. *)
Fixpoint parse_format (fmt : string) : result (list fmt_item) :=
  match fmt with
  | EmptyString => Returned []
  | String c r =>
      if ascii_eqb c "%" then
        match r with
        | EmptyString => Raised (ValueError "stray % in format")
        | String k r' =>
            its ← parse_format r';
            if ascii_eqb k "Y" then Returned (FDir DirY :: its)
            else if ascii_eqb k "m" then Returned (FDir Dirm :: its)
            else if ascii_eqb k "d" then Returned (FDir Dird :: its)
            else Raised (ValueError "bad directive in format")
        end
      else its ← parse_format r; Returned (FLit c :: its)
  end.

Definition in_range (lo hi c : ascii) : bool :=
  ((nat_of_ascii lo <=? nat_of_ascii c)
   && (nat_of_ascii c <=? nat_of_ascii hi))%nat.

(** One alternative of a directive's regular expression: one character
    of class [p], or two characters of classes [p] and [q].  The result
    lists the captured text and the rest of the input. *)
Definition alt1 (p : ascii → bool) (s : string) : list (string * string) :=
  match s with
  | String a r => if p a then [(String a EmptyString, r)] else []
  | _ => []
  end.

Definition alt2 (p q : ascii → bool) (s : string) : list (string * string) :=
  match s with
  | String a (String b r) =>
      if p a && q b then [(String a (String b EmptyString), r)] else []
  | _ => []
  end.

(** The regular expressions of [_strptime.TimeRE], alternatives in the
    order the backtracking matcher tries them:
    [Y] is [\d\d\d\d], [m] is [1[0-2]|0[1-9]|[1-9]] and
    [d] is [3[0-1]|[1-2]\d|0[1-9]|[1-9]| [1-9]]. *)
Definition match_directive (d : directive) (s : string)
  : list (string * string) :=
  match d with
  | DirY =>
      match s with
      | String a (String b (String c (String e r))) =>
          if is_digit a && is_digit b && is_digit c && is_digit e
          then [(String a (String b (String c (String e EmptyString))), r)]
          else []
      | _ => []
      end
  | Dirm =>
      alt2 (in_range "1" "1") (in_range "0" "2") s
      ++ alt2 (in_range "0" "0") (in_range "1" "9") s
      ++ alt1 (in_range "1" "9") s
  | Dird =>
      alt2 (in_range "3" "3") (in_range "0" "1") s
      ++ alt2 (in_range "1" "2") is_digit s
      ++ alt2 (in_range "0" "0") (in_range "1" "9") s
      ++ alt1 (in_range "1" "9") s
      ++ alt2 (in_range " " " ") (in_range "1" "9") s
  end.

(** The named groups of a match. *)
Record groups := {
  g_Y : option string;
  g_m : option string;
  g_d : option string
}.

Definition no_groups : groups := {| g_Y := None; g_m := None; g_d := None |}.

Definition set_group (d : directive) (v : string) (g : groups) : groups :=
  match d with
  | DirY => {| g_Y := Some v; g_m := g_m g; g_d := g_d g |}
  | Dirm => {| g_Y := g_Y g; g_m := Some v; g_d := g_d g |}
  | Dird => {| g_Y := g_Y g; g_m := g_m g; g_d := Some v |}
  end.

(** All the ways the compiled format matches a prefix of [s], in the
    order backtracking finds them; [re.match] returns the first. *)
Fixpoint match_items (its : list fmt_item) (s : string) (g : groups)
  : list (groups * string) :=
  match its with
  | [] => [(g, s)]
  | FLit c :: its' =>
      match s with
      | String a r => if ascii_eqb a c then match_items its' r g else []
      | EmptyString => []
      end
  | FDir d :: its' =>
      flat_map (λ m, match_items its' m.2 (set_group d m.1 g))
               (match_directive d s)
  end.

(** [int(s)] on a text of decimal digits with leading white space. *)
Fixpoint int_digits (acc : Z) (s : string) : result Z :=
  match s with
  | EmptyString => Returned acc
  | String c r =>
      if is_digit c then int_digits (10 * acc + digit_val c) r
      else Raised (ValueError "invalid literal for int() with base 10")
  end.

Definition py_int (s : string) : result Z :=
  match strip s with
  | EmptyString => Raised (ValueError "invalid literal for int() with base 10")
  | t => int_digits 0 t
  end.

Definition int_group (v : option string) (default : Z) : result Z :=
  match v with
  | None => Returned default
  | Some s => py_int s
  end.

Definition is_leap (y : Z) : bool :=
  (y mod 4 =? 0) && (negb (y mod 100 =? 0) || (y mod 400 =? 0)).

Definition days_in_month (y m : Z) : Z :=
  if m =? 2 then (if is_leap y then 29 else 28)
  else if (m =? 4) || (m =? 6) || (m =? 9) || (m =? 11) then 30
  else 31.

(** The checks of the [date] constructor. *)
Definition make_date (y m d : Z) : result datetime :=
  if negb ((1 <=? y) && (y <=? 9999)) then
    Raised (ValueError "year is out of range")
  else if negb ((1 <=? m) && (m <=? 12)) then
    Raised (ValueError "month must be in 1..12")
  else if negb ((1 <=? d) && (d <=? days_in_month y m)) then
    Raised (ValueError "day is out of range for month")
  else Returned {| year := y; month := m; day := d |}.

(** [datetime.strptime(data_string, format)] *)
Definition strptime (data_string format : string) : result datetime :=
  its ← parse_format format;
  match match_items its data_string no_groups with
  | [] => Raised (ValueError "time data does not match format")
  | (found, rest) :: _ =>
      if negb (str_empty rest) then
        Raised (ValueError "unconverted data remains")
      else
        y ← int_group (g_Y found) 1900;
        m ← int_group (g_m found) 1;
        d ← int_group (g_d found) 1;
        make_date y m d
  end.

Definition digit_char (n : Z) : ascii := ascii_of_nat (Z.to_nat (48 + n mod 10)).

Definition pad2 (n : Z) : string :=
  String (digit_char (n / 10)) (String (digit_char n) EmptyString).

Definition pad4 (n : Z) : string :=
  String (digit_char (n / 1000)) (String (digit_char (n / 100))
    (String (digit_char (n / 10)) (String (digit_char n) EmptyString))).

(** [dt.strftime(format)] for the directives [%Y], [%m] and [%d]: the
    year in decimal, as many digits as it has; month and day on two
    digits. *)
Fixpoint strftime (dt : datetime) (fmt : string) : string :=
  match fmt with
  | EmptyString => EmptyString
  | String c r =>
      if ascii_eqb c "%" then
        match r with
        | EmptyString => String c EmptyString
        | String k r' =>
            (if ascii_eqb k "Y" then pretty (year dt)
             else if ascii_eqb k "m" then pad2 (month dt)
             else if ascii_eqb k "d" then pad2 (day dt)
             else String c (String k EmptyString))
            +:+ strftime dt r'
        end
      else String c (strftime dt r)
  end.

(** ** [format_date] *)

Definition date_formats : list string := ["%Y-%m-%d"; "%Y-%m"; "%m/%Y"; "%Y"].

(** The [for fmt in (...)] loop: a [ValueError] of [strptime] moves on to
    the next format, any other exception would leave the function. *)
Fixpoint format_date_loop (date_str : string) (fmts : list string)
  : result (option string) :=
  match fmts with
  | [] => Returned None
  | fmt :: fmts' =>
      match strptime date_str fmt with
      | Returned dt => Returned (Some (strftime dt "%Y-%m-%d"))
      | Raised (ValueError _) => format_date_loop date_str fmts'
      | Raised e => Raised e
      end
  end.

Definition format_date (date_str : option string) : result (option string) :=
  match date_str with
  | None => Returned None
  | Some s => if str_empty s then Returned None
              else format_date_loop s date_formats
  end.

(** ** The CSV record parser *)

(** A bibliographic item: the dict built per CSV row.  [title], [date]
    and [doi] hold whatever [row.get] returned: a [str] or [None]. *)
Record item := {
  title : option string;
  authors : list string;
  date : option string;
  doi : option string
}.

(** A row of [csv.DictReader]: a dict from column name to cell, where the
    cell of a column the row is too short for is [None]. *)
Abbreviation row := (gmap string (option string)).

(** [row.get(key)] *)
Definition row_get (r : row) (key : string) : option string :=
  default None (r !! key).

(** [row.get(key, dflt)] *)
Definition row_get_default (r : row) (key dflt : string) : option string :=
  default (Some dflt) (r !! key).

(** [last, first = parts] *)
Definition unpack2 (parts : list string) : result (string * string) :=
  match parts with
  | [a; b] => Returned (a, b)
  | _ => Raised (ValueError "wrong number of values to unpack")
  end.

(** Which branch of the author loop handled an entry. *)
Inductive author_branch := Reordered | Fallback | Verbatim | Omitted.

(** One turn of [for author in authors_raw], with the branch taken. *)
Definition parse_author (author : string)
  : result (list string * author_branch) :=
  let author := strip author in
  if contains "," author then
    match unpack2 (strip <$> split1 "," author) with
    | Returned (last, first) =>
        Returned ([first +:+ " " +:+ last], Reordered)
    | Raised (ValueError _) => Returned ([author], Fallback)
    | Raised e => Raised e
    end
  else if negb (str_empty author) then Returned ([author], Verbatim)
  else Returned ([], Omitted).

Fixpoint parse_authors_loop (authors_raw : list string) (authors : list string)
  : result (list string) :=
  match authors_raw with
  | [] => Returned authors
  | author :: rest =>
      r ← parse_author author;
      parse_authors_loop rest (authors ++ r.1)
  end.

(** [row.get('Author', '').split(';')] and the loop over it.  A [None]
    cell has no [split]. *)
Definition parse_authors (cell : option string) : result (list string) :=
  match cell with
  | None => Raised (AttributeError "'NoneType' object has no attribute 'split'")
  | Some a => parse_authors_loop (split ";" a) []
  end.

(** The body of [for row in reader]: [None] when the row is skipped. *)
Definition parse_row (r : row) : result (option item) :=
  if negb (truthy (row_get r "Title")) then Returned None
  else
    authors ← parse_authors (row_get_default r "Author" "");
    Returned (Some {| title := row_get_default r "Title" "No Title Provided";
                      authors := authors;
                      date := row_get_default r "Date" "";
                      doi := row_get_default r "DOI" "" |}).

Fixpoint parse_rows (rows : list row) (items : list item)
  : result (list item) :=
  match rows with
  | [] => Returned items
  | r :: rest =>
      o ← parse_row r;
      parse_rows rest (items ++ option_list o)
  end.

(** [parse_zotero_csv(path, logger)]: [reader] is what opening and
    reading the file gives, the rows or the exception; the second
    component is what went to [logger]. *)
Definition parse_zotero_csv (path : string) (reader : result (list row))
  : result (list item) * list string :=
  let log := ["Reading Zotero data from: " +:+ path] in
  match rows ← reader; parse_rows rows [] with
  | Returned items =>
      (Returned items,
       log ++ ["Parsed " +:+ pretty (length items) +:+ " items from CSV."])
  | Raised e => (Raised e, log)
  end.

(** ** The Notion API *)

Definition NOTION_VERSION : string := "2022-06-28".

(** [{"text": {"content": c}}] *)
Record text_segment := { text_content : option string }.

(** A record of the remote table: for each property, its ["title"] list
    (empty when the property is not a title). *)
Record page := { page_properties : gmap string (list text_segment) }.

Record query_data := {
  results : list page;
  has_more : bool;
  next_cursor : option string
}.

Record property_def := { pd_type : option string }.

Record schema_data := { schema_properties : gmap string property_def }.

(** The JSON body of a query: [start_cursor] is [None] when the key is
    absent. *)
Record query_payload := { page_size : Z; start_cursor : option string }.

(** The value of one property of a creation request. *)
Inductive property :=
| PTitle (segs : list text_segment)
| PRichText (segs : list text_segment)
| PDate (start : string)
| PUrl (url : string).

Record page_payload := {
  parent_database_id : string;
  properties : gmap string property
}.

Abbreviation headers := (list (string * string)).

(** What [requests.post] or [requests.get] gives: an exception of the
    transport (connection error, timeout) or a response. *)
Inductive reply (B : Type) :=
| ConnFailed (msg : string)
| Response (status_code : Z) (reason text : string) (body : B).
Arguments ConnFailed {B} msg.
Arguments Response {B} status_code reason text body.

(** The remote service: a world and what each request does to it. *)
Record Notion (World : Type) := {
  post_query : string → headers → query_payload → World
               → reply query_data * World;
  get_database : string → headers → World → reply schema_data * World;
  post_page : string → headers → page_payload → World
              → reply unit * World
}.
Arguments post_query {World} _ _ _ _ _.
Arguments get_database {World} _ _ _ _.
Arguments post_page {World} _ _ _ _ _.

(** The requests sent, with what came back. *)
Inductive event :=
| Queried (url : string) (h : headers) (p : query_payload)
    (r : reply query_data)
| Inspected (url : string) (h : headers) (r : reply schema_data)
| Submitted (url : string) (h : headers) (p : page_payload) (r : reply unit).

Record state (World : Type) := {
  world : World;
  log : list string;
  trace : list event
}.
Arguments world {World} _.
Arguments log {World} _.
Arguments trace {World} _.

Definition logger {World} (line : string) (st : state World) : state World :=
  {| world := world st; log := log st ++ [line]; trace := trace st |}.

Definition sent {World} (w : World) (ev : event) (st : state World)
  : state World :=
  {| world := w; log := log st; trace := trace st ++ [ev] |}.

(** [r.raise_for_status()] after the request itself: the transport's
    exception, an [HTTPError] for a status in 400..599, else the body. *)
Definition raise_for_status {B} (url : string) (r : reply B) : result B :=
  match r with
  | ConnFailed msg => Raised (RequestException msg None)
  | Response sc reason text body =>
      if (400 <=? sc) && (sc <? 500) then
        Raised (RequestException
                  (pretty sc +:+ " Client Error: " +:+ reason
                   +:+ " for url: " +:+ url)
                  (Some {| resp_text := text |}))
      else if (500 <=? sc) && (sc <? 600) then
        Raised (RequestException
                  (pretty sc +:+ " Server Error: " +:+ reason
                   +:+ " for url: " +:+ url)
                  (Some {| resp_text := text |}))
      else Returned body
  end.

(** The counts the push loop keeps. *)
Record SyncResult := { pushed : nat; skipped : nat }.

(** ** The sync engine *)

Definition title_keys : list string := ["Title"; "Name"; "title"].

(** [for key in ("Title", "Name", "title")]: the content of the first
    segment of the first candidate that has one. *)
Fixpoint first_title (keys : list string)
    (props : gmap string (list text_segment)) : option (option string) :=
  match keys with
  | [] => None
  | key :: keys' =>
      match default [] (props !! key) with
      | seg :: _ => Some (text_content seg)
      | [] => first_title keys' props
      end
  end.

Definition add_page (existing_titles : gset (option string)) (p : page)
  : gset (option string) :=
  match first_title title_keys (page_properties p) with
  | Some t => {[ t ]} ∪ existing_titles
  | None => existing_titles
  end.

Definition query_url (notion_db_id : string) : string :=
  "https://api.notion.com/v1/databases/" +:+ notion_db_id +:+ "/query".

Definition database_url (notion_db_id : string) : string :=
  "https://api.notion.com/v1/databases/" +:+ notion_db_id.

Definition pages_url : string := "https://api.notion.com/v1/pages".

Definition json_headers (notion_token : string) : headers :=
  [("Authorization", "Bearer " +:+ notion_token);
   ("Content-Type", "application/json");
   ("Notion-Version", NOTION_VERSION)].

Definition plain_headers (notion_token : string) : headers :=
  [("Authorization", "Bearer " +:+ notion_token);
   ("Notion-Version", NOTION_VERSION)].

(** The properties of the creation request of one item. *)
Definition doi_url_of (doi_value : string) : string :=
  if startswith "http" doi_value then doi_value
  else "https://doi.org/" +:+ doi_value.

Definition build_properties (doi_type : option string) (it : item)
  : result (gmap string property) :=
  let authors_text :=
    match authors it with
    | [] => "Unknown"
    | _ => join ", " (authors it)
    end in
  let doi_value :=
    if truthy (doi it) then Some (strip (str_of (doi it))) else None in
  d ← format_date (date it);
  let date_iso := if truthy d then d else None in
  let properties : gmap string property :=
    <[ "Authors" := PRichText [{| text_content := Some authors_text |}] ]>
      {[ "Title" := PTitle [{| text_content := title it |}] ]} in
  let properties :=
    match date_iso with
    | Some iso => <[ "Date" := PDate iso ]> properties
    | None => properties
    end in
  let properties :=
    if truthy doi_value then
      let doi_url := doi_url_of (str_of doi_value) in
      if bool_decide (doi_type = Some "url")
      then <[ "DOI" := PUrl doi_url ]> properties
      else <[ "DOI" := PRichText [{| text_content := Some doi_url |}] ]>
             properties
    else properties in
  Returned properties.

Section Sync.
Context {World : Type} (N : Notion World).

(** The [while has_more] loop of [get_existing_notion_titles]; [None]
    when [fuel] turns do not reach a page without [has_more]. *)
Fixpoint fetch_pages (fuel : nat) (notion_token notion_db_id : string)
    (cursor : option string) (existing_titles : gset (option string))
    (st : state World)
  : option (result (gset (option string)) * state World) :=
  match fuel with
  | O => None
  | S fuel' =>
      let url := query_url notion_db_id in
      let h := json_headers notion_token in
      let payload :=
        {| page_size := 100;
           start_cursor := if truthy cursor then cursor else None |} in
      let '(r, w) := post_query N url h payload (world st) in
      let st := sent w (Queried url h payload r) st in
      match raise_for_status url r with
      | Raised (RequestException msg info) =>
          Some (Raised (RequestException msg info),
                logger ("Failed to fetch existing pages from Notion: "
                        +:+ msg) st)
      | Raised e => Some (Raised e, st)
      | Returned data =>
          let existing_titles :=
            foldl add_page existing_titles (results data) in
          if has_more data then
            fetch_pages fuel' notion_token notion_db_id (next_cursor data)
                        existing_titles st
          else Some (Returned existing_titles, st)
      end
  end.

Definition get_existing_notion_titles (fuel : nat)
    (notion_token notion_db_id : string) (st : state World)
  : option (result (gset (option string)) * state World) :=
  match fetch_pages fuel notion_token notion_db_id None ∅ st with
  | Some (Returned existing_titles, st) =>
      Some (Returned existing_titles,
            logger ("Found " +:+ pretty (size existing_titles)
                    +:+ " existing titles in Notion.") st)
  | other => other
  end.

Definition get_database_properties (notion_token notion_db_id : string)
    (st : state World) : result (gmap string (option string)) * state World :=
  let url := database_url notion_db_id in
  let h := plain_headers notion_token in
  let '(r, w) := get_database N url h (world st) in
  let st := sent w (Inspected url h r) st in
  match raise_for_status url r with
  | Returned data => (Returned (pd_type <$> schema_properties data), st)
  | Raised (RequestException msg info) =>
      (Raised (RequestException msg info),
       logger ("Could not fetch database schema: " +:+ msg) st)
  | Raised e => (Raised e, st)
  end.

(** The [for item in items_to_push] loop. *)
Fixpoint push_items (notion_token notion_db_id : string)
    (existing_titles : gset (option string)) (doi_type : option string)
    (items_to_push : list item) (counts : SyncResult) (st : state World)
  : result SyncResult * state World :=
  match items_to_push with
  | [] => (Returned counts, st)
  | it :: rest =>
      if bool_decide (title it ∈ existing_titles) then
        push_items notion_token notion_db_id existing_titles doi_type rest
          {| pushed := pushed counts; skipped := S (skipped counts) |}
          (logger ("Skipping existing item: " +:+ str_of (title it)) st)
      else
        match build_properties doi_type it with
        | Raised e => (Raised e, st)
        | Returned props =>
            let data := {| parent_database_id := notion_db_id;
                           properties := props |} in
            let h := json_headers notion_token in
            let '(r, w) := post_page N pages_url h data (world st) in
            let st := sent w (Submitted pages_url h data r) st in
            match raise_for_status pages_url r with
            | Returned _ =>
                push_items notion_token notion_db_id existing_titles
                  doi_type rest
                  {| pushed := S (pushed counts);
                     skipped := skipped counts |}
                  (logger ("Pushed: " +:+ str_of (title it)) st)
            | Raised (RequestException msg info) =>
                let st := logger ("Failed to push '" +:+ str_of (title it)
                                  +:+ "': " +:+ msg) st in
                let st := match info with
                          | Some i =>
                              logger ("   Reason: " +:+ resp_text i) st
                          | None => st
                          end in
                push_items notion_token notion_db_id existing_titles
                  doi_type rest counts st
            | Raised e => (Raised e, st)
            end
        end
  end.

(** [push_to_notion]: the function ends without a [return], so what it
    returns is [None]; the counts go to the log only. *)
Definition push_to_notion (fuel : nat) (items_to_push : list item)
    (notion_token notion_db_id : string) (st : state World)
  : option (result (option SyncResult) * state World) :=
  match get_existing_notion_titles fuel notion_token notion_db_id st with
  | None => None
  | Some (Raised e, st) => Some (Raised e, st)
  | Some (Returned existing_titles, st) =>
      match get_database_properties notion_token notion_db_id st with
      | (Raised e, st) => Some (Raised e, st)
      | (Returned prop_types, st) =>
          let doi_type := default (Some "rich_text") (prop_types !! "DOI") in
          let st := logger ("DOI property type: " +:+ str_of doi_type) st in
          match push_items notion_token notion_db_id existing_titles
                  doi_type items_to_push {| pushed := 0; skipped := 0 |} st
          with
          | (Raised e, st) => Some (Raised e, st)
          | (Returned counts, st) =>
              Some (Returned None,
                    logger ("Finished. pushed=" +:+ pretty (pushed counts)
                            +:+ ", skipped=" +:+ pretty (skipped counts)) st)
          end
      end
  end.
End Sync.

Definition initial_state {World} (w : World) : state World :=
  {| world := w; log := []; trace := [] |}.

(** ** A scripted remote service

    A world that answers from lists prepared in advance: each query
    takes the next reply of [query_replies], each submission the next of
    [page_replies]; when a list is used up, a query gets an empty last
    page and a submission is accepted. *)
Record script := {
  query_replies : list (reply query_data);
  schema_reply : reply schema_data;
  page_replies : list (reply unit)
}.

Definition scripted : Notion script := {|
  post_query _ _ _ w :=
    match query_replies w with
    | r :: rs => (r, {| query_replies := rs; schema_reply := schema_reply w;
                        page_replies := page_replies w |})
    | [] => (Response 200 "OK" ""
               {| results := []; has_more := false; next_cursor := None |}, w)
    end;
  get_database _ _ w := (schema_reply w, w);
  post_page _ _ _ w :=
    match page_replies w with
    | r :: rs => (r, {| query_replies := query_replies w;
                        schema_reply := schema_reply w; page_replies := rs |})
    | [] => (Response 200 "OK" "" (), w)
    end
|}.

Definition titled_page (t : string) : page :=
  {| page_properties := {[ "Title" := [{| text_content := Some t |}] ]} |}.

Definition one_page (titles : list string) : reply query_data :=
  Response 200 "OK" ""
    {| results := titled_page <$> titles; has_more := false;
       next_cursor := None |}.

Definition schema_with_doi (ty : string) : reply schema_data :=
  Response 200 "OK" ""
    {| schema_properties := {[ "DOI" := {| pd_type := Some ty |} ]} |}.

Definition paper (t : string) : item :=
  {| title := Some t; authors := []; date := Some ""; doi := Some "" |}.

Definition demo_world : script :=
  {| query_replies := [one_page ["Paper A"]];
     schema_reply := schema_with_doi "url";
     page_replies := [] |}.

Definition demo_run :=
  push_to_notion scripted 5 [paper "Paper A"; paper "Paper B"] "secret" "db1"
    (initial_state demo_world).

(** ** Statements about the parser *)

(** The names one stripped entry of the author field contributes. *)
Inductive entry_names : string → list string → Prop :=
| names_reordered l f :
    contains "," l = false →
    entry_names (l +:+ String "," f) [strip f +:+ " " +:+ strip l]
| names_kept e :
    contains "," e = false → e ≠ "" → entry_names e [e]
| names_omitted : entry_names "" [].

(** "Every entry without a comma is kept verbatim", where the entries
    are the pieces between semicolons. *)
Definition entries_kept_verbatim (field : string) : Prop :=
  ∀ out entry,
    parse_authors (Some field) = Returned out →
    entry ∈ split ";" field → contains "," entry = false → entry ≠ "" →
    entry ∈ out.

(** An item built from a row that has a title. *)
Definition item_of_row (it : item) (r : row) : Prop :=
  title it = row_get r "Title"
  ∧ parse_authors (row_get_default r "Author" "") = Returned (authors it)
  ∧ date it = row_get_default r "Date" ""
  ∧ doi it = row_get_default r "DOI" "".

Definition demo_rows : list row :=
  [ <[ "Title" := Some "A" ]> {[ "Author" := Some "Doe, Jane; Smith, Bob" ]};
    <[ "Title" := Some "" ]> {[ "Author" := Some "Nobody" ]};
    {[ "Author" := Some "Untitled, Ann" ]};
    <[ "Title" := Some "A" ]> {[ "DOI" := Some "10.1/xyz" ]} ].

Definition demo_items : list item :=
  [ {| title := Some "A"; authors := ["Jane Doe"; "Bob Smith"];
       date := Some ""; doi := Some "" |};
    {| title := Some "A"; authors := []; date := Some "";
       doi := Some "10.1/xyz" |} ].

(** ** Statements about the date normaliser *)

(** The four accepted patterns, in the order they are tried. *)
Inductive pattern := YearMonthDay | YearMonth | MonthYear | YearOnly.

Definition patterns : list pattern :=
  [YearMonthDay; YearMonth; MonthYear; YearOnly].

Definition pattern_format (p : pattern) : string :=
  match p with
  | YearMonthDay => "%Y-%m-%d"
  | YearMonth => "%Y-%m"
  | MonthYear => "%m/%Y"
  | YearOnly => "%Y"
  end.

Definition valid_date (dt : datetime) : Prop :=
  1 ≤ year dt ≤ 9999 ∧ 1 ≤ month dt ≤ 12
  ∧ 1 ≤ day dt ≤ days_in_month (year dt) (month dt).

(** The ways a month and a day may be written: two digits, or, below
    ten, the digit alone (for a day also with a space before it). *)
Definition month_texts (m : Z) : list string :=
  if m <? 10 then [pad2 m; String (digit_char m) ""] else [pad2 m].

Definition day_texts (d : Z) : list string :=
  if d <? 10 then
    [pad2 d; String (digit_char d) ""; String " " (String (digit_char d) "")]
  else [pad2 d].

(** [reads p s dt]: the text [s], read by pattern [p], is the calendar
    date [dt]; what the text does not give is 1. *)
Definition reads (p : pattern) (s : string) (dt : datetime) : Prop :=
  valid_date dt ∧
  match p with
  | YearMonthDay =>
      ∃ ms ds, ms ∈ month_texts (month dt) ∧ ds ∈ day_texts (day dt)
               ∧ s = pad4 (year dt) +:+ "-" +:+ ms +:+ "-" +:+ ds
  | YearMonth =>
      day dt = 1
      ∧ ∃ ms, ms ∈ month_texts (month dt) ∧ s = pad4 (year dt) +:+ "-" +:+ ms
  | MonthYear =>
      day dt = 1
      ∧ ∃ ms, ms ∈ month_texts (month dt) ∧ s = ms +:+ "/" +:+ pad4 (year dt)
  | YearOnly => month dt = 1 ∧ day dt = 1 ∧ s = pad4 (year dt)
  end.

(** The text [YYYY-MM-DD] of a date. *)
Definition iso_text (dt : datetime) : string :=
  pad4 (year dt) +:+ "-" +:+ pad2 (month dt) +:+ "-" +:+ pad2 (day dt).

(** The text [format_date] gives for a date: the year in decimal, then
    month and day on two digits, with dashes between them. *)
Definition date_text (dt : datetime) : string :=
  pretty (year dt) +:+ "-" +:+ pad2 (month dt) +:+ "-" +:+ pad2 (day dt).

(** Ten characters: four digits, a dash, two digits, a dash, two digits. *)
Definition is_iso_date (s : string) : bool :=
  match s with
  | String y1 (String y2 (String y3 (String y4 (String h1
      (String m1 (String m2 (String h2 (String d1 (String d2
        EmptyString))))))))) =>
      is_digit y1 && is_digit y2 && is_digit y3 && is_digit y4
      && ascii_eqb h1 "-" && is_digit m1 && is_digit m2
      && ascii_eqb h2 "-" && is_digit d1 && is_digit d2
  | _ => false
  end.

(** The number a text of four digits denotes. *)
Definition four_digits_value (a b c e : ascii) : Z :=
  10 * (10 * (10 * (10 * 0 + digit_val a) + digit_val b) + digit_val c)
  + digit_val e.

(** What the regular expressions of [%m] and [%d] can capture. *)
Definition month_caps : list string :=
  ["10"; "11"; "12"; "01"; "02"; "03"; "04"; "05"; "06"; "07"; "08"; "09";
   "1"; "2"; "3"; "4"; "5"; "6"; "7"; "8"; "9"].

Definition day_caps : list string :=
  ["30"; "31";
   "10"; "11"; "12"; "13"; "14"; "15"; "16"; "17"; "18"; "19";
   "20"; "21"; "22"; "23"; "24"; "25"; "26"; "27"; "28"; "29";
   "01"; "02"; "03"; "04"; "05"; "06"; "07"; "08"; "09";
   "1"; "2"; "3"; "4"; "5"; "6"; "7"; "8"; "9";
   " 1"; " 2"; " 3"; " 4"; " 5"; " 6"; " 7"; " 8"; " 9"].

Definition is_four_digits (cap : string) : Prop :=
  ∃ a b c e, cap = String a (String b (String c (String e "")))
             ∧ is_digit a = true ∧ is_digit b = true
             ∧ is_digit c = true ∧ is_digit e = true.

Definition cap_ok (d : directive) (cap : string) : Prop :=
  match d with
  | DirY => is_four_digits cap
  | Dirm => cap ∈ month_caps
  | Dird => cap ∈ day_caps
  end.

(** The compiled form of each accepted format. *)
Definition pattern_items (p : pattern) : list fmt_item :=
  match p with
  | YearMonthDay => [FDir DirY; FLit "-"; FDir Dirm; FLit "-"; FDir Dird]
  | YearMonth => [FDir DirY; FLit "-"; FDir Dirm]
  | MonthYear => [FDir Dirm; FLit "/"; FDir DirY]
  | YearOnly => [FDir DirY]
  end.

(** The date the groups of a match denote. *)
Definition date_of_groups (found : groups) : result datetime :=
  y ← int_group (g_Y found) 1900;
  m ← int_group (g_m found) 1;
  d ← int_group (g_d found) 1;
  make_date y m d.

(** A call that raises nothing but [ValueError]. *)
Definition only_value_error {A} (r : result A) : Prop :=
  ∀ e, r = Raised e → ∃ msg, e = ValueError msg.

(** ** Statements about a run *)

(** A reply that makes the request fail: the transport raised, or the
    status is in 400..599. *)
Definition is_failure {B} (r : reply B) : bool :=
  match r with
  | ConnFailed _ => true
  | Response sc _ _ _ => (400 <=? sc) && (sc <? 600)
  end.

(** The creation requests of a trace, with their replies. *)
Definition submission (ev : event) : option (page_payload * reply unit) :=
  match ev with
  | Submitted _ _ p r => Some (p, r)
  | _ => None
  end.

Definition submissions (tr : list event) : list (page_payload * reply unit) :=
  omap submission tr.

Definition accepted (sub : page_payload * reply unit) : bool :=
  negb (is_failure sub.2).

(** A request of the title index or of the schema that failed. *)
Definition lookup_failed (ev : event) : bool :=
  match ev with
  | Queried _ _ _ r => is_failure r
  | Inspected _ _ r => is_failure r
  | Submitted _ _ _ _ => false
  end.

(** The properties of the request for an item ([build_properties]
    always returns, see [build_properties_returns]). *)
Definition properties_of (doi_type : option string) (it : item)
  : gmap string property :=
  match build_properties doi_type it with
  | Returned props => props
  | Raised _ => ∅
  end.

Definition payload_of (notion_db_id : string) (doi_type : option string)
    (it : item) : page_payload :=
  {| parent_database_id := notion_db_id;
     properties := properties_of doi_type it |}.

(** The title a creation request carries. *)
Definition payload_title (p : page_payload) : option string :=
  match properties p !! "Title" with
  | Some (PTitle (seg :: _)) => text_content seg
  | _ => None
  end.

(** What the loop logs when a submission fails. *)
Definition failure_lines (sub : page_payload * reply unit) : list string :=
  match raise_for_status pages_url sub.2 with
  | Raised (RequestException msg info) =>
      ("Failed to push '" +:+ str_of (payload_title sub.1) +:+ "': " +:+ msg)
      :: match info with
         | Some i => ["   Reason: " +:+ resp_text i]
         | None => []
         end
  | _ => []
  end.

Definition is_new (existing_titles : gset (option string)) (it : item) : Prop :=
  title it ∉ existing_titles.

Definition is_known (existing_titles : gset (option string)) (it : item)
  : Prop :=
  title it ∈ existing_titles.

Global Instance is_new_dec existing_titles it :
  Decision (is_new existing_titles it).
Proof. unfold is_new. apply _. Defined.

Global Instance is_known_dec existing_titles it :
  Decision (is_known existing_titles it).
Proof. unfold is_known. apply _. Defined.

(** The creation request sent for an item. *)
Definition submits (notion_token notion_db_id : string)
    (doi_type : option string) (ev : event) (it : item) : Prop :=
  ∃ r, ev = Submitted pages_url (json_headers notion_token)
              (payload_of notion_db_id doi_type it) r.

(** "The sync returns the two counts": the value returned is a record of
    counts. *)
Definition returns_counts {World}
    (run : option (result (option SyncResult) * state World)) : Prop :=
  ∃ counts st, run = Some (Returned (Some counts), st).

(** "A DOI field is included iff the item's DOI string is non-empty." *)
Definition doi_included_iff_nonempty (it : item) : Prop :=
  ∀ doi_type props,
    build_properties doi_type it = Returned props →
    (is_Some (props !! "DOI") ↔ ∃ d, doi it = Some d ∧ d ≠ "").

(** How a DOI is encoded for a field type. *)
Definition encode_doi (doi_type : option string) (doi_url : string)
  : property :=
  if bool_decide (doi_type = Some "url") then PUrl doi_url
  else PRichText [{| text_content := Some doi_url |}].

(** The text a DOI property carries. *)
Definition doi_text (p : property) : option string :=
  match p with
  | PUrl u => Some u
  | PRichText (seg :: _) => text_content seg
  | _ => None
  end.

Definition blank_doi_item : item :=
  {| title := Some "T"; authors := []; date := None; doi := Some " " |}.

Definition doi_paper (t d : string) : item :=
  {| title := Some t; authors := ["Jane Doe"]; date := Some "2020-05";
     doi := Some d |}.

(** A service that loses the first submission and rejects the second. *)
Definition flaky_world : script :=
  {| query_replies := [one_page ["Paper A"]];
     schema_reply := schema_with_doi "url";
     page_replies := [ConnFailed "timed out";
                      Response 400 "Bad Request" "validation_error" ()] |}.

(** A service whose second page of the index cannot be fetched. *)
Definition broken_index_world : script :=
  {| query_replies :=
       [Response 200 "OK" ""
          {| results := [titled_page "Paper A"]; has_more := true;
             next_cursor := Some "c1" |};
        ConnFailed "connection reset"];
     schema_reply := schema_with_doi "url";
     page_replies := [] |}.

(** A service whose schema request is refused. *)
Definition broken_schema_world : script :=
  {| query_replies := [one_page ["Paper A"]];
     schema_reply := Response 404 "Not Found" "object_not_found"
                       {| schema_properties := ∅ |};
     page_replies := [] |}.

(** ** Further statements about the parser *)

(** A row with a title whose Author cell is [None]. *)
Definition short_row (r : row) : Prop :=
  truthy (row_get r "Title") ∧ r !! "Author" = Some None.

(** A display name as the parser leaves it alone: not empty, no white
    space around it, no comma and no semicolon inside. *)
Definition plain_name (n : string) : Prop :=
  n ≠ "" ∧ strip n = n ∧ contains "," n = false ∧ contains ";" n = false.

Definition name_only_rows : list row :=
  [ {[ "Title" := Some "A" ]}; <[ "Title" := Some "B" ]> {[ "Author" := None ]};
    {[ "Title" := Some "C" ]} ].

(** An author as Zotero exports it, "Last, First", and as the parser
    displays it, "First Last". *)
Definition zotero_author (p : string * string) : string :=
  p.1 +:+ ", " +:+ p.2.

Definition display_author (p : string * string) : string :=
  p.2 +:+ " " +:+ p.1.

(** Both parts non-empty, stripped and free of semicolons, the last name
    free of commas. *)
Definition zotero_name_ok (p : string * string) : Prop :=
  p.1 ≠ "" ∧ strip p.1 = p.1 ∧ contains "," p.1 = false
  ∧ contains ";" p.1 = false
  ∧ p.2 ≠ "" ∧ strip p.2 = p.2 ∧ contains ";" p.2 = false.

(** ** Statements about the title index *)

(** The body of a query for the page after [cursor]. *)
Definition query_for (cursor : option string) : query_payload :=
  {| page_size := 100;
     start_cursor := if truthy cursor then cursor else None |}.

(** What the service does to a walk through the pages that starts in
    world [w] with the query for [cursor]: [failed_fetch N token db n
    cursor w] is the exception of the fetch that comes after [n] pages
    announcing more, and [None] when the service does not answer that
    way. *)
Fixpoint failed_fetch {World} (N : Notion World) (token db : string)
    (n : nat) (cursor : option string) (w : World) : option exn :=
  let '(r, w') :=
    post_query N (query_url db) (json_headers token) (query_for cursor) w in
  match raise_for_status (query_url db) r, n with
  | Raised e, O => Some e
  | Returned data, S n' =>
      if has_more data
      then failed_fetch N token db n' (next_cursor data) w'
      else None
  | _, _ => None
  end.

(** The title a record contributes to the index, if any. *)
Definition page_title (p : page) : option (option string) :=
  first_title title_keys (page_properties p).

(** The records of the pages a trace fetched. *)
Definition fetched (ev : event) : list page :=
  match ev with
  | Queried url _ _ r =>
      match raise_for_status url r with
      | Returned data => results data
      | Raised _ => []
      end
  | _ => []
  end.

Definition fetched_pages (evs : list event) : list page :=
  concat (fetched <$> evs).

(** The queries of a complete walk through the pages, starting after
    [cursor]: each one asks for the page after the cursor the reply
    before it gave, and only the last reply has no [has_more]. *)
Inductive paged (url : string) (h : headers)
  : option string → list event → Prop :=
| paged_last cursor r data :
    raise_for_status url r = Returned data →
    has_more data = false →
    paged url h cursor [Queried url h (query_for cursor) r]
| paged_more cursor r data evs :
    raise_for_status url r = Returned data →
    has_more data = true →
    paged url h (next_cursor data) evs →
    paged url h cursor (Queried url h (query_for cursor) r :: evs).

(** A service that always answers with the same page, says there is
    more, and gives no cursor. *)
Definition stalled : Notion unit := {|
  post_query _ _ _ w :=
    (Response 200 "OK" ""
       {| results := [titled_page "Paper A"]; has_more := true;
          next_cursor := None |}, w);
  get_database _ _ w := (schema_with_doi "url", w);
  post_page _ _ _ w := (Response 200 "OK" "" (), w)
|}.

(** ** Further statements about a run *)

Definition event_headers (ev : event) : headers :=
  match ev with
  | Queried _ h _ _ => h
  | Inspected _ h _ => h
  | Submitted _ h _ _ => h
  end.

(** A request of the sync for this token and database: a query for 100
    records, the schema request, or the creation of a record in the
    database, each at its address with its headers. *)
Definition well_addressed (notion_token notion_db_id : string) (ev : event)
  : Prop :=
  match ev with
  | Queried url h p _ =>
      url = query_url notion_db_id ∧ h = json_headers notion_token
      ∧ page_size p = 100
  | Inspected url h _ =>
      url = database_url notion_db_id ∧ h = plain_headers notion_token
  | Submitted url h p _ =>
      url = pages_url ∧ h = json_headers notion_token
      ∧ parent_database_id p = notion_db_id
  end.

(** The text of the Authors property. *)
Definition authors_text_of (it : item) : string :=
  match authors it with
  | [] => "Unknown"
  | _ => join ", " (authors it)
  end.

(** The keys a creation request may carry. *)
Definition property_keys : list string := ["Title"; "Authors"; "Date"; "DOI"].

(** A service that keeps the titles of the records it holds: a query
    gives them all on one page, a creation is accepted and adds its
    title. *)
Definition stored_page (t : option string) : page :=
  {| page_properties := {[ "Title" := [{| text_content := t |}] ]} |}.

Definition recording : Notion (list (option string)) := {|
  post_query _ _ _ w :=
    (Response 200 "OK" ""
       {| results := stored_page <$> w; has_more := false;
          next_cursor := None |}, w);
  get_database _ _ w := (schema_with_doi "url", w);
  post_page _ _ p w := (Response 200 "OK" "" (), w ++ [payload_title p])
|}.

(** ** The configuration file ([save_env], [load_env]) *)

(** The three entry fields of the window. *)
Record entries := {
  token_entry : string;
  db_entry : string;
  csv_entry : string
}.

Definition newline : ascii := ascii_of_nat 10.
Definition carriage_return : ascii := ascii_of_nat 13.

(** The text [save_env] writes. *)
Definition env_text (token dbid csvp : string) : string :=
  "NOTION_TOKEN=" +:+ token +:+ String newline
    ("NOTION_DB_ID=" +:+ dbid +:+ String newline
       ("ZOTERO_CSV_PATH=" +:+ csvp +:+ String newline "")).

(** [save_env]: the text written to the file, or [None] when a value is
    empty and the user does not confirm ([confirm] is the answer to
    "Save anyway?"). *)
Definition save_env (e : entries) (confirm : bool) : option string :=
  let token := strip (token_entry e) in
  let dbid := strip (db_entry e) in
  let csvp := strip (csv_entry e) in
  if (str_empty token || str_empty dbid || str_empty csvp) && negb confirm
  then None
  else Some (env_text token dbid csvp).

(** [for line in f] on a file opened in text mode: the lines with their
    end, where a carriage return, alone or before a line feed, reads as
    a line feed. *)
Fixpoint file_lines (s : string) : list string :=
  match s with
  | EmptyString => []
  | String c s' =>
      if ascii_eqb c newline then String newline "" :: file_lines s'
      else if ascii_eqb c carriage_return then
        match s' with
        | String c' s'' =>
            if ascii_eqb c' newline then String newline "" :: file_lines s''
            else String newline "" :: file_lines s'
        | EmptyString => [String newline ""]
        end
      else
        match file_lines s' with
        | [] => [String c ""]
        | l :: ls => String c l :: ls
        end
  end.

(** One turn of the loop of [load_env]. *)
Definition env_line (vals : gmap string string) (line : string)
  : result (gmap string string) :=
  if negb (str_empty (strip line)) && contains "=" line
     && negb (startswith "#" line)
  then
    kv ← unpack2 (split1 "=" (strip line));
    Returned (<[ kv.1 := kv.2 ]> vals)
  else Returned vals.

Fixpoint env_lines (lines : list string) (vals : gmap string string)
  : result (gmap string string) :=
  match lines with
  | [] => Returned vals
  | line :: rest => vals' ← env_line vals line; env_lines rest vals'
  end.

(** [load_env]: [file] is the text of the file, [None] when there is no
    file; the result is what the entry fields hold afterwards.  An
    exception inside the [try] leaves them as they were. *)
Definition load_env (file : option string) (e : entries) : entries :=
  match file with
  | None => e
  | Some text =>
      match env_lines (file_lines text) ∅ with
      | Returned vals =>
          {| token_entry := default "" (vals !! "NOTION_TOKEN");
             db_entry := default "" (vals !! "NOTION_DB_ID");
             csv_entry := default "" (vals !! "ZOTERO_CSV_PATH") |}
      | Raised _ => e
      end
  end.

(** A value that fits on one line. *)
Definition one_line (v : string) : Prop :=
  contains newline v = false ∧ contains carriage_return v = false.

(** ** The sync thread ([_sync_thread]) *)

(** [str(e)] *)
Definition str_exn (e : exn) : string :=
  match e with
  | ValueError msg => msg
  | AttributeError msg => msg
  | RequestException msg _ => msg
  end.

(** [bool(response)]: a response is true when [raise_for_status] would
    not raise, that is when its status is outside 400..599. *)
Definition response_truth (status_code : Z) : bool :=
  negb ((400 <=? status_code) && (status_code <? 600)).

Section SyncThread.
Context {World : Type} (N : Notion World).

(** The status code of the response an [HTTPError] carries. *)
Context (status_code : response_info → Z).

(** The [except] clauses: the title and the text of the error box.  An
    exception with a response is the [HTTPError] of
    [raise_for_status]; anything else goes to [except Exception]. *)
Definition sync_error_dialog (e : exn) : string * string :=
  match e with
  | RequestException msg (Some response) =>
      if response_truth (status_code response)
         && (status_code response =? 401)
      then ("Credential Error", "Invalid Notion credentials.")
      else if response_truth (status_code response)
              && (status_code response =? 404)
      then ("Database Error", "Database not found or access denied.")
      else ("Sync Error", "Error: " +:+ msg)
  | _ => ("Sync Error",
          "Unexpected error:" +:+ String newline (str_exn e))
  end.

End SyncThread.

(** * Properties *)

(** ** Strings *)

Lemma ascii_eqb_true a b : ascii_eqb a b = true ↔ a = b.
Proof. unfold ascii_eqb. by rewrite bool_decide_eq_true. Qed.

Lemma ascii_eqb_false a b : ascii_eqb a b = false ↔ a ≠ b.
Proof. unfold ascii_eqb. by rewrite bool_decide_eq_false. Qed.

Lemma str_empty_true s : str_empty s = true ↔ s = "".
Proof. by destruct s. Qed.

Lemma str_empty_false s : str_empty s = false ↔ s ≠ "".
Proof. by destruct s. Qed.

(** Cutting at the first separator: exactly two parts, the first one
    free of the separator, and the text is the two around it. *)
Lemma split1_contains sep s :
  contains sep s = true →
  ∃ l f, split1 sep s = [l; f] ∧ s = l +:+ String sep f
         ∧ contains sep l = false.
Proof.
  induction s as [|c s IH]; simpl; [done|].
  destruct (ascii_eqb c sep) eqn:E; simpl.
  - intros _. apply ascii_eqb_true in E as ->. by exists "", s.
  - intros H. destruct (IH H) as (l & f & -> & -> & Hl).
    exists (String c l), f. simpl. by rewrite E, Hl.
Qed.

Lemma split1_no_sep sep s : contains sep s = false → split1 sep s = [s].
Proof.
  induction s as [|c s IH]; simpl; [done|].
  destruct (ascii_eqb c sep); simpl; [done|].
  intros H. by rewrite (IH H).
Qed.

Lemma append_nil_r s : s +:+ "" = s.
Proof. induction s as [|c s IH]; [done|]. by rewrite <-IH at 2. Qed.

Lemma append_cons c s r : String c s +:+ r = String c (s +:+ r).
Proof. done. Qed.

Lemma append_assoc s1 s2 s3 : (s1 +:+ s2) +:+ s3 = s1 +:+ s2 +:+ s3.
Proof.
  induction s1 as [|c s1 IH]; [done|]. by rewrite !append_cons, IH.
Qed.

Lemma length_append s1 s2 :
  String.length (s1 +:+ s2) = (String.length s1 + String.length s2)%nat.
Proof.
  induction s1 as [|c s1 IH]; [done|]. rewrite append_cons. simpl.
  by rewrite IH.
Qed.

(** ** Author parsing *)

Lemma parse_author_total entry :
  ∃ out br, parse_author entry = Returned (out, br) ∧ br ≠ Fallback.
Proof.
  unfold parse_author.
  destruct (contains "," (strip entry)) eqn:E.
  - destruct (split1_contains _ _ E) as (l & f & -> & _ & _). simpl.
    by eexists _, _.
  - destruct (str_empty (strip entry)); simpl; by eexists _, _.
Qed.

Lemma parse_authors_loop_total raw acc :
  ∃ out, parse_authors_loop raw acc = Returned out.
Proof.
  revert acc. induction raw as [|e raw IH]; intros acc; simpl; [by eexists|].
  destruct (parse_author_total e) as (out & br & -> & _). simpl. apply IH.
Qed.

Lemma parse_author_names entry :
  ∃ out br, parse_author entry = Returned (out, br)
            ∧ entry_names (strip entry) out.
Proof.
  unfold parse_author.
  destruct (contains "," (strip entry)) eqn:E.
  - destruct (split1_contains _ _ E) as (l & f & -> & Hs & Hl). simpl.
    eexists _, _. split; [done|]. rewrite Hs. by constructor.
  - destruct (str_empty (strip entry)) eqn:Ee; simpl; eexists _, _;
      (split; [done|]).
    + apply str_empty_true in Ee as ->. constructor.
    + apply str_empty_false in Ee. by constructor.
Qed.

Lemma parse_authors_loop_names raw acc :
  ∃ names, parse_authors_loop raw acc = Returned (acc ++ concat names)
           ∧ Forall2 entry_names (strip <$> raw) names.
Proof.
  revert acc. induction raw as [|e raw IH]; intros acc; simpl.
  - exists []. by rewrite app_nil_r.
  - destruct (parse_author_names e) as (out & br & -> & Hn). simpl.
    destruct (IH (acc ++ out)) as (names & -> & HF).
    exists (out :: names). simpl. rewrite app_assoc. by split; [|constructor].
Qed.

(** C10. Author parsing is total: an entry that contains a comma, cut at
    its first comma, always gives exactly two parts, so unpacking them
    succeeds; the loop never takes the fallback of the [except] branch;
    and whatever the text of the Author field, the parse returns. *)
Theorem author_parsing_total :
  (∀ entry, contains "," entry = true →
     ∃ l f, split1 "," entry = [l; f]
            ∧ unpack2 (strip <$> split1 "," entry)
              = Returned (strip l, strip f))
  ∧ (∀ entry, ∃ out br,
       parse_author entry = Returned (out, br) ∧ br ≠ Fallback)
  ∧ (∀ field : string, ∃ out, parse_authors (Some field) = Returned out).
Proof.
  split; [|split].
  - intros entry H. destruct (split1_contains _ _ H) as (l & f & -> & _).
    by exists l, f.
  - apply parse_author_total.
  - intros field. apply parse_authors_loop_total.
Qed.

Lemma author_parsing_total_witness :
  ∃ l f, split1 "," "Doe, Jane" = [l; f]
         ∧ unpack2 (strip <$> split1 "," "Doe, Jane")
           = Returned (strip l, strip f).
Proof. apply (proj1 author_parsing_total "Doe, Jane"). reflexivity. Defined.

(** A cell that is [None], as [csv.DictReader] leaves it in a short row,
    is no text: the parse stops with an [AttributeError]. *)
Lemma parse_authors_none :
  ∃ msg, parse_authors None = Raised (AttributeError msg).
Proof. by eexists. Qed.

(** C6, as stated, fails: in ["A; B"] the second piece is [" B"], and
    the list of authors holds ["B"], not the piece itself. *)
Lemma padded_entry_not_verbatim : ¬ entries_kept_verbatim "A; B".
Proof.
  intros H. specialize (H ["A"; "B"] " B").
  assert (Hin : " B" ∈ ["A"; "B"]).
  { apply H; [reflexivity| |reflexivity|discriminate].
    change (split ";" "A; B") with ["A"; " B"]. set_solver. }
  apply list_elem_of_In in Hin. simpl in Hin.
  destruct Hin as [Hin|[Hin|[]]]; discriminate.
Qed.

(** C6, amended. The author field is cut at its semicolons and every
    piece is stripped of surrounding white space.  A stripped piece that
    contains a comma is cut at its first comma and gives "First Last",
    both parts stripped; one without a comma is kept as it is; an empty
    one is omitted.  So "Doe, Jane; Smith, Bob" gives Jane Doe, Bob Smith. *)
Theorem authors_from_stripped_entries (field : string) :
  (∃ names, parse_authors (Some field) = Returned (concat names)
            ∧ Forall2 entry_names (strip <$> split ";" field) names)
  ∧ parse_authors (Some "Doe, Jane; Smith, Bob")
    = Returned ["Jane Doe"; "Bob Smith"]
  ∧ parse_authors (Some "Jane Doe") = Returned ["Jane Doe"].
Proof.
  split; [|by split].
  destruct (parse_authors_loop_names (split ";" field) []) as (names & H & HF).
  by exists names.
Qed.

(** ** The CSV parser *)

Lemma truthy_Some v : truthy v = true → ∃ t, v = Some t ∧ t ≠ "".
Proof.
  destruct v as [t|]; [|done]. simpl. intros H. exists t. split; [done|].
  destruct t; [done|discriminate].
Qed.

Lemma parse_rows_spec rows acc items :
  parse_rows rows acc = Returned items →
  ∃ new, items = acc ++ new
         ∧ Forall2 item_of_row new
             (filter (λ r, truthy (row_get r "Title")) rows).
Proof.
  revert acc items. induction rows as [|r rows IH]; intros acc items; simpl.
  - intros [= <-]. exists []. by rewrite app_nil_r.
  - unfold parse_row. rewrite filter_cons.
    destruct (truthy (row_get r "Title")) eqn:Ht; simpl.
    + destruct (parse_authors (row_get_default r "Author" "")) as [au|e] eqn:Ha;
        simpl; [|done].
      intros H. apply IH in H as (new & -> & HF).
      eexists (_ :: new). rewrite <-app_assoc. split; [done|].
      constructor; [|done]. repeat split; simpl; try done.
      apply truthy_Some in Ht as (t & Ht & _).
      unfold row_get, row_get_default in *.
      destruct (r !! "Title") as [v|]; simpl in *; [done|discriminate].
    + intros H. apply IH in H as (new & -> & HF). exists new.
      rewrite app_nil_r. by split.
Qed.

Lemma item_of_row_titled it r :
  truthy (row_get r "Title") → item_of_row it r →
  ∃ t, title it = Some t ∧ t ≠ "".
Proof.
  intros Ht (-> & _). apply truthy_Some. by apply Is_true_true.
Qed.

(** C7. Every item of the sequence the parser returns has a non-empty
    title: the items are, in row order and one for one, the rows whose
    Title is neither absent nor empty; rows with equal titles each keep
    their item. *)
Theorem parsed_items_have_titles path rows items lg :
  parse_zotero_csv path (Returned rows) = (Returned items, lg) →
  Forall (λ it, ∃ t, title it = Some t ∧ t ≠ "") items
  ∧ Forall2 item_of_row items (filter (λ r, truthy (row_get r "Title")) rows).
Proof.
  unfold parse_zotero_csv. simpl.
  destruct (parse_rows rows []) as [its|e] eqn:H; [|done].
  intros [= <- _]. apply parse_rows_spec in H as (new & -> & HF). simpl.
  split; [|done].
  apply Forall_forall. intros it Hin.
  destruct (proj1 (list_elem_of_lookup _ _) Hin) as [i Hi].
  destruct (Forall2_lookup_l _ _ _ _ _ HF Hi) as (r & Hr & Hir).
  apply (item_of_row_titled it r); [|done].
  assert (Hrin : r ∈ filter (λ r, truthy (row_get r "Title")) rows)
    by (apply list_elem_of_lookup; eauto).
  by apply list_elem_of_filter in Hrin as [? _].
Qed.

Lemma parsed_items_have_titles_witness :
  Forall (λ it, ∃ t, title it = Some t ∧ t ≠ "") demo_items
  ∧ Forall2 item_of_row demo_items
      (filter (λ r, truthy (row_get r "Title")) demo_rows).
Proof.
  apply (parsed_items_have_titles "library.csv" demo_rows demo_items
           ["Reading Zotero data from: library.csv";
            "Parsed 2 items from CSV."]).
  vm_compute. reflexivity.
Defined.

(** The parser returns as soon as no row with a title has a [None]
    Author cell. *)
Lemma parse_rows_returns rows acc :
  Forall (λ r, truthy (row_get r "Title") → r !! "Author" ≠ Some None) rows →
  ∃ items, parse_rows rows acc = Returned items.
Proof.
  revert acc. induction rows as [|r rows IH]; intros acc HF; simpl;
    [by eexists|].
  apply Forall_cons in HF as [Hr HF]. unfold parse_row.
  destruct (truthy (row_get r "Title")) eqn:Ht; simpl; [|by apply IH].
  destruct (r !! "Author") as [[a|]|] eqn:Ha;
    unfold row_get_default; rewrite Ha; simpl.
  - destruct (parse_authors_loop_total (split ";" a) []) as [au ->]. simpl.
    by apply IH.
  - destruct Hr; [by apply Is_true_true|done].
  - by apply IH.
Qed.

(** ** Digits *)

Ltac ascii_cases c :=
  destruct c as [[] [] [] [] [] [] [] []].

Lemma is_digit_char c :
  is_digit c = true → c = digit_char (digit_val c) ∧ 0 ≤ digit_val c ≤ 9.
Proof.
  intros H. ascii_cases c; try (vm_compute in H; discriminate H);
    (split; [reflexivity|vm_compute; split; discriminate]).
Qed.

Lemma digit_char_small n :
  0 ≤ n ≤ 9 →
  is_digit (digit_char n) = true ∧ digit_val (digit_char n) = n
  ∧ is_space (digit_char n) = false.
Proof.
  intros H.
  assert (n = 0 ∨ n = 1 ∨ n = 2 ∨ n = 3 ∨ n = 4 ∨ n = 5 ∨ n = 6 ∨ n = 7
          ∨ n = 8 ∨ n = 9) as Hn by lia.
  repeat destruct Hn as [->|Hn]; try subst n; by vm_compute.
Qed.

Lemma digit_char_mod n : digit_char n = digit_char (n mod 10).
Proof. unfold digit_char. by rewrite Z.mod_mod. Qed.

Lemma digit_char_digit n :
  is_digit (digit_char n) = true ∧ digit_val (digit_char n) = n mod 10
  ∧ is_space (digit_char n) = false.
Proof.
  rewrite digit_char_mod. apply digit_char_small.
  pose proof (Z.mod_pos_bound n 10). lia.
Qed.

Lemma is_digit_not_space c : is_digit c = true → is_space c = false.
Proof.
  intros H. destruct (is_digit_char c H) as [-> _]. apply digit_char_digit.
Qed.

Lemma pad4_value y :
  0 ≤ y ≤ 9999 →
  1000 * ((y / 1000) mod 10) + 100 * ((y / 100) mod 10)
  + 10 * ((y / 10) mod 10) + y mod 10 = y.
Proof. intros H. Z.div_mod_to_equations. lia. Qed.

Lemma pad4_digits a b c e :
  0 ≤ a ≤ 9 → 0 ≤ b ≤ 9 → 0 ≤ c ≤ 9 → 0 ≤ e ≤ 9 →
  let y := 10 * (10 * (10 * (10 * 0 + a) + b) + c) + e in
  (y / 1000) mod 10 = a ∧ (y / 100) mod 10 = b ∧ (y / 10) mod 10 = c
  ∧ y mod 10 = e ∧ 0 ≤ y ≤ 9999.
Proof. intros Ha Hb Hc He y. subst y. Z.div_mod_to_equations. lia. Qed.

(** A text of four digits reads as the number it is the padding of. *)
Lemma int_of_four_digits a b c e :
  is_digit a = true → is_digit b = true → is_digit c = true →
  is_digit e = true →
  let y := four_digits_value a b c e in
  py_int (String a (String b (String c (String e "")))) = Returned y
  ∧ 0 ≤ y ≤ 9999
  ∧ String a (String b (String c (String e ""))) = pad4 y.
Proof.
  intros Ha Hb Hc He.
  pose proof (is_digit_not_space _ Ha) as Sa.
  pose proof (is_digit_not_space _ Hb) as Sb.
  pose proof (is_digit_not_space _ Hc) as Sc.
  pose proof (is_digit_not_space _ He) as Se.
  destruct (is_digit_char _ Ha) as [Ea Ba].
  destruct (is_digit_char _ Hb) as [Eb Bb].
  destruct (is_digit_char _ Hc) as [Ec Bc].
  destruct (is_digit_char _ He) as [Ee Be].
  unfold py_int, strip. simpl. rewrite Sa. simpl. rewrite Se, Sc, Sb, Sa.
  simpl. rewrite Ha, Hb, Hc, He.
  split; [reflexivity|].
  destruct (pad4_digits _ _ _ _ Ba Bb Bc Be) as (H1 & H2 & H3 & H4 & H5).
  split; [exact H5|].
  unfold pad4, four_digits_value.
  rewrite (digit_char_mod (_ / 1000)), (digit_char_mod (_ / 100)),
    (digit_char_mod (_ / 10)), (digit_char_mod (10 * _ + _)).
  rewrite H1, H2, H3, H4. congruence.
Qed.

Lemma py_int_pad4 y : 0 ≤ y ≤ 9999 → py_int (pad4 y) = Returned y.
Proof.
  intros H. unfold pad4.
  destruct (digit_char_digit (y / 1000)) as (D1 & V1 & _).
  destruct (digit_char_digit (y / 100)) as (D2 & V2 & _).
  destruct (digit_char_digit (y / 10)) as (D3 & V3 & _).
  destruct (digit_char_digit y) as (D4 & V4 & _).
  destruct (int_of_four_digits _ _ _ _ D1 D2 D3 D4) as (-> & _ & _).
  f_equal. unfold four_digits_value. rewrite V1, V2, V3, V4.
  pose proof (pad4_value y H). lia.
Qed.

(** ** The regular expressions of the directives *)

Lemma alt1_elem p s cap r :
  (cap, r) ∈ alt1 p s →
  ∃ a, s = String a r ∧ cap = String a "" ∧ p a = true.
Proof.
  destruct s as [|a s]; simpl; [by intros ?%elem_of_nil|].
  destruct (p a) eqn:E; [|by intros ?%elem_of_nil].
  intros [= -> ->]%list_elem_of_singleton. by exists a.
Qed.

Lemma alt2_elem p q s cap r :
  (cap, r) ∈ alt2 p q s →
  ∃ a b, s = String a (String b r) ∧ cap = String a (String b "")
         ∧ p a = true ∧ q b = true.
Proof.
  destruct s as [|a [|b s]]; simpl; try by intros ?%elem_of_nil.
  destruct (p a) eqn:E; simpl; [|by intros ?%elem_of_nil].
  destruct (q b) eqn:E'; [|by intros ?%elem_of_nil].
  intros [= -> ->]%list_elem_of_singleton. by exists a, b.
Qed.

(** Membership of a concrete text in a concrete list. *)
Ltac in_list := repeat first [apply list_elem_of_here | apply list_elem_of_further].

Ltac range_cases c H :=
  ascii_cases c; try (vm_compute in H; discriminate H); clear H.

Lemma match_directive_sound d s cap r :
  (cap, r) ∈ match_directive d s → s = cap +:+ r ∧ cap_ok d cap.
Proof.
  destruct d; simpl.
  - destruct s as [|a [|b [|c [|e s]]]]; try by intros ?%elem_of_nil.
    destruct (is_digit a) eqn:Ha; simpl; [|by intros ?%elem_of_nil].
    destruct (is_digit b) eqn:Hb; simpl; [|by intros ?%elem_of_nil].
    destruct (is_digit c) eqn:Hc; simpl; [|by intros ?%elem_of_nil].
    destruct (is_digit e) eqn:He; simpl; [|by intros ?%elem_of_nil].
    intros [= -> ->]%list_elem_of_singleton. split; [done|].
    by exists a, b, c, e.
  - rewrite !elem_of_app.
    intros [H|[H|H]];
      [apply alt2_elem in H as (a & b & -> & -> & Ha & Hb)..
      |apply alt1_elem in H as (a & -> & -> & Ha)];
      (split; [done|]).
    + range_cases a Ha; range_cases b Hb; in_list.
    + range_cases a Ha; range_cases b Hb; in_list.
    + range_cases a Ha; in_list.
  - rewrite !elem_of_app.
    intros [H|[H|[H|[H|H]]]];
      [apply alt2_elem in H as (a & b & -> & -> & Ha & Hb)..
      |apply alt1_elem in H as (a & -> & -> & Ha)
      |apply alt2_elem in H as (a & b & -> & -> & Ha & Hb)];
      (split; [done|]).
    + range_cases a Ha; range_cases b Hb; in_list.
    + range_cases a Ha; range_cases b Hb; in_list.
    + range_cases a Ha; range_cases b Hb; in_list.
    + range_cases a Ha; in_list.
    + range_cases a Ha; range_cases b Hb; in_list.
Qed.

Lemma month_cap_value cap :
  cap ∈ month_caps →
  ∃ m, py_int cap = Returned m ∧ 1 ≤ m ≤ 12 ∧ cap ∈ month_texts m.
Proof.
  unfold month_caps. intros H.
  repeat (apply elem_of_cons in H as [->|H]);
    try (by apply elem_of_nil in H);
    (eexists; split; [vm_compute; reflexivity|split; [lia|in_list]]).
Qed.

Lemma day_cap_value cap :
  cap ∈ day_caps →
  ∃ d, py_int cap = Returned d ∧ 1 ≤ d ≤ 31 ∧ cap ∈ day_texts d.
Proof.
  unfold day_caps. intros H.
  repeat (apply elem_of_cons in H as [->|H]);
    try (by apply elem_of_nil in H);
    (eexists; split; [vm_compute; reflexivity|split; [lia|in_list]]).
Qed.

(** ** Matching a compiled format *)

Lemma match_items_nil s g x : x ∈ match_items [] s g ↔ x = (g, s).
Proof. simpl. apply list_elem_of_singleton. Qed.

Lemma match_items_lit c its s g x :
  x ∈ match_items (FLit c :: its) s g ↔
  ∃ r, s = String c r ∧ x ∈ match_items its r g.
Proof.
  simpl. destruct s as [|a r].
  - split; [by intros ?%elem_of_nil|]. by intros (? & ? & _).
  - destruct (ascii_eqb a c) eqn:E.
    + apply ascii_eqb_true in E as ->. split; [by exists r|].
      by intros (? & [= ->] & ?).
    + apply ascii_eqb_false in E. split; [by intros ?%elem_of_nil|].
      intros (? & [= -> ->] & _). done.
Qed.

Lemma match_items_dir d its s g x :
  x ∈ match_items (FDir d :: its) s g ↔
  ∃ cap r, (cap, r) ∈ match_directive d s
           ∧ x ∈ match_items its r (set_group d cap g).
Proof.
  simpl. rewrite list_elem_of_In, in_flat_map. split.
  - intros ([cap r] & Hin & Hx). exists cap, r.
    by rewrite !list_elem_of_In.
  - intros (cap & r & Hin & Hx). exists (cap, r).
    by rewrite <-!list_elem_of_In.
Qed.

Lemma parse_pattern_format p :
  parse_format (pattern_format p) = Returned (pattern_items p).
Proof. by destruct p. Qed.

Lemma strptime_unfold s p :
  strptime s (pattern_format p) =
  match match_items (pattern_items p) s no_groups with
  | [] => Raised (ValueError "time data does not match format")
  | (found, rest) :: _ =>
      if negb (str_empty rest) then
        Raised (ValueError "unconverted data remains")
      else date_of_groups found
  end.
Proof. unfold strptime. by rewrite parse_pattern_format. Qed.

Lemma strptime_inv s p dt :
  strptime s (pattern_format p) = Returned dt →
  ∃ found, (found, "") ∈ match_items (pattern_items p) s no_groups
           ∧ date_of_groups found = Returned dt.
Proof.
  rewrite strptime_unfold.
  destruct (match_items (pattern_items p) s no_groups) as [|[found rest] l];
    [done|].
  destruct rest; simpl; [|done]. intros H. exists found.
  split; [apply list_elem_of_here|done].
Qed.

Lemma make_date_inv y m d dt :
  make_date y m d = Returned dt →
  dt = {| year := y; month := m; day := d |} ∧ valid_date dt.
Proof.
  unfold make_date.
  destruct (1 <=? y) eqn:H1; simpl; [|done].
  destruct (y <=? 9999) eqn:H2; simpl; [|done].
  destruct (1 <=? m) eqn:H3; simpl; [|done].
  destruct (m <=? 12) eqn:H4; simpl; [|done].
  destruct (1 <=? d) eqn:H5; simpl; [|done].
  destruct (d <=? days_in_month y m) eqn:H6; simpl; [|done].
  intros [= <-]. split; [done|]. unfold valid_date. simpl. lia.
Qed.

Lemma make_date_valid dt :
  valid_date dt → make_date (year dt) (month dt) (day dt) = Returned dt.
Proof.
  intros (Hy & Hm & Hd). unfold make_date.
  rewrite (proj2 (Z.leb_le 1 (year dt))), (proj2 (Z.leb_le (year dt) 9999)),
    (proj2 (Z.leb_le 1 (month dt))), (proj2 (Z.leb_le (month dt) 12)),
    (proj2 (Z.leb_le 1 (day dt))),
    (proj2 (Z.leb_le (day dt) (days_in_month (year dt) (month dt))))
    by lia.
  simpl. by destruct dt.
Qed.

Lemma year_cap_value cap y :
  is_four_digits cap → py_int cap = Returned y →
  0 ≤ y ≤ 9999 ∧ cap = pad4 y.
Proof.
  intros (a & b & c & e & -> & Ha & Hb & Hc & He) H.
  destruct (int_of_four_digits _ _ _ _ Ha Hb Hc He) as (H1 & H2 & H3).
  rewrite H1 in H. injection H as <-. done.
Qed.

(** A format that succeeds reads the text as its pattern says. *)
Lemma strptime_reads_1 p s dt :
  strptime s (pattern_format p) = Returned dt → reads p s dt.
Proof.
  intros (found & Hin & Hd)%strptime_inv. unfold date_of_groups in Hd.
  destruct p; unfold pattern_items in Hin.
  - apply match_items_dir in Hin
      as (cY & r1 & [-> HY]%match_directive_sound & Hin).
    apply match_items_lit in Hin as (r2 & -> & Hin).
    apply match_items_dir in Hin
      as (cm & r3 & [-> Hm]%match_directive_sound & Hin).
    apply match_items_lit in Hin as (r4 & -> & Hin).
    apply match_items_dir in Hin
      as (cd & r5 & [-> HD]%match_directive_sound & Hin).
    apply match_items_nil in Hin as [= -> <-]. simpl in *.
    destruct (py_int cY) as [y|] eqn:Ey; [|done].
    destruct (month_cap_value _ Hm) as (m & Em & Bm & Tm).
    destruct (day_cap_value _ HD) as (d & Ed & Bd & Td).
    rewrite Em, Ed in Hd. simpl in Hd.
    apply make_date_inv in Hd as [-> Hv].
    destruct (year_cap_value _ _ HY Ey) as [_ ->].
    split; [done|]. exists cm, cd. simpl. by rewrite append_nil_r.
  - apply match_items_dir in Hin
      as (cY & r1 & [-> HY]%match_directive_sound & Hin).
    apply match_items_lit in Hin as (r2 & -> & Hin).
    apply match_items_dir in Hin
      as (cm & r3 & [-> Hm]%match_directive_sound & Hin).
    apply match_items_nil in Hin as [= -> <-]. simpl in *.
    destruct (py_int cY) as [y|] eqn:Ey; [|done].
    destruct (month_cap_value _ Hm) as (m & Em & Bm & Tm).
    rewrite Em in Hd. simpl in Hd.
    apply make_date_inv in Hd as [-> Hv].
    destruct (year_cap_value _ _ HY Ey) as [_ ->].
    split; [done|]. split; [done|]. exists cm. simpl.
    by rewrite append_nil_r.
  - apply match_items_dir in Hin
      as (cm & r1 & [-> Hm]%match_directive_sound & Hin).
    apply match_items_lit in Hin as (r2 & -> & Hin).
    apply match_items_dir in Hin
      as (cY & r3 & [-> HY]%match_directive_sound & Hin).
    apply match_items_nil in Hin as [= -> <-]. simpl in *.
    destruct (py_int cY) as [y|] eqn:Ey; [|done].
    destruct (month_cap_value _ Hm) as (m & Em & Bm & Tm).
    rewrite Em in Hd. simpl in Hd.
    apply make_date_inv in Hd as [-> Hv].
    destruct (year_cap_value _ _ HY Ey) as [_ ->].
    split; [done|]. split; [done|]. exists cm. simpl.
    by rewrite append_nil_r.
  - apply match_items_dir in Hin
      as (cY & r1 & [-> HY]%match_directive_sound & Hin).
    apply match_items_nil in Hin as [= -> <-]. simpl in *.
    destruct (py_int cY) as [y|] eqn:Ey; [|done]. simpl in Hd.
    apply make_date_inv in Hd as [-> Hv].
    destruct (year_cap_value _ _ HY Ey) as [_ ->].
    split; [done|]. simpl. by rewrite append_nil_r.
Qed.

(** The other way round: the matcher finds each accepted spelling. *)
Lemma month_text_cap m ms :
  1 ≤ m ≤ 12 → ms ∈ month_texts m →
  ms ∈ month_caps ∧ py_int ms = Returned m.
Proof.
  intros Hm.
  assert (m = 1 ∨ m = 2 ∨ m = 3 ∨ m = 4 ∨ m = 5 ∨ m = 6 ∨ m = 7 ∨ m = 8
          ∨ m = 9 ∨ m = 10 ∨ m = 11 ∨ m = 12) as Hc by lia.
  clear Hm. intros H.
  repeat destruct Hc as [->|Hc]; try subst m;
    vm_compute in H;
    repeat (apply elem_of_cons in H as [->|H]);
    try (by apply elem_of_nil in H);
    (split; [in_list|reflexivity]).
Qed.

Lemma day_text_cap d ds :
  1 ≤ d ≤ 31 → ds ∈ day_texts d →
  ds ∈ day_caps ∧ py_int ds = Returned d.
Proof.
  intros Hd.
  assert (d = 1 ∨ d = 2 ∨ d = 3 ∨ d = 4 ∨ d = 5 ∨ d = 6 ∨ d = 7 ∨ d = 8
          ∨ d = 9 ∨ d = 10 ∨ d = 11 ∨ d = 12 ∨ d = 13 ∨ d = 14 ∨ d = 15
          ∨ d = 16 ∨ d = 17 ∨ d = 18 ∨ d = 19 ∨ d = 20 ∨ d = 21 ∨ d = 22
          ∨ d = 23 ∨ d = 24 ∨ d = 25 ∨ d = 26 ∨ d = 27 ∨ d = 28 ∨ d = 29
          ∨ d = 30 ∨ d = 31) as Hc by lia.
  clear Hd. intros H.
  repeat destruct Hc as [->|Hc]; try subst d;
    vm_compute in H;
    repeat (apply elem_of_cons in H as [->|H]);
    try (by apply elem_of_nil in H);
    (split; [in_list|reflexivity]).
Qed.

Lemma match_year its y rest g :
  0 ≤ y ≤ 9999 →
  match_items (FDir DirY :: its) (pad4 y +:+ rest) g
  = match_items its rest (set_group DirY (pad4 y) g).
Proof.
  intros _. unfold pad4. rewrite !append_cons.
  destruct (digit_char_digit (y / 1000)) as (D1 & _).
  destruct (digit_char_digit (y / 100)) as (D2 & _).
  destruct (digit_char_digit (y / 10)) as (D3 & _).
  destruct (digit_char_digit y) as (D4 & _).
  cbn [match_items match_directive]. rewrite D1, D2, D3, D4.
  cbn [andb flat_map fst snd]. apply app_nil_r.
Qed.

Lemma match_lit c its rest g :
  match_items (FLit c :: its) (String c rest) g = match_items its rest g.
Proof.
  cbn [match_items]. by rewrite (proj2 (ascii_eqb_true c c)).
Qed.

Lemma match_dir_lit d c its s g :
  match_items (FDir d :: FLit c :: its) s g
  = flat_map (λ m, match m.2 with
                   | "" => []
                   | String a r =>
                       if ascii_eqb a c
                       then match_items its r (set_group d m.1 g) else []
                   end) (match_directive d s).
Proof. reflexivity. Qed.

Lemma match_month_lit ms c its rest g :
  ms ∈ month_caps → c = "-"%char ∨ c = "/"%char →
  match_items (FDir Dirm :: FLit c :: its) (ms +:+ String c rest) g
  = match_items its rest (set_group Dirm ms g).
Proof.
  unfold month_caps. intros H Hc. rewrite match_dir_lit.
  generalize (match_items its). intros F.
  repeat (apply elem_of_cons in H as [->|H]);
    try (by apply elem_of_nil in H);
    destruct Hc as [-> | ->]; cbv -[app]; apply app_nil_r.
Qed.

Lemma match_month_end ms g :
  ms ∈ month_caps →
  head (match_items [FDir Dirm] ms g) = Some (set_group Dirm ms g, "").
Proof.
  unfold month_caps. intros H.
  repeat (apply elem_of_cons in H as [->|H]);
    try (by apply elem_of_nil in H); reflexivity.
Qed.

Lemma match_day_end ds g :
  ds ∈ day_caps →
  head (match_items [FDir Dird] ds g) = Some (set_group Dird ds g, "").
Proof.
  unfold day_caps. intros H.
  repeat (apply elem_of_cons in H as [->|H]);
    try (by apply elem_of_nil in H); reflexivity.
Qed.

Lemma match_year_end y g :
  0 ≤ y ≤ 9999 →
  match_items [FDir DirY] (pad4 y) g = [(set_group DirY (pad4 y) g, "")].
Proof.
  intros H. rewrite <-(append_nil_r (pad4 y)) at 1. by rewrite match_year.
Qed.

Lemma strptime_found s p found l dt :
  match_items (pattern_items p) s no_groups = (found, "") :: l →
  date_of_groups found = Returned dt →
  strptime s (pattern_format p) = Returned dt.
Proof. rewrite strptime_unfold. by intros ->. Qed.

Lemma head_cons {A} (l : list A) x : head l = Some x → ∃ l', l = x :: l'.
Proof. destruct l; [done|]. intros [= ->]. by eexists. Qed.

Lemma strptime_reads_2 p s dt :
  reads p s dt → strptime s (pattern_format p) = Returned dt.
Proof.
  intros [Hv Hp]. pose proof Hv as (Hy & Hm & Hd).
  assert (Hy' : 0 ≤ year dt ≤ 9999) by lia.
  assert (Hd' : 1 ≤ day dt ≤ 31).
  { split; [lia|]. etrans; [apply Hd|]. unfold days_in_month.
    repeat case_match; lia. }
  destruct p.
  - destruct Hp as (ms & ds & Hms & Hds & ->).
    destruct (month_text_cap _ _ Hm Hms) as [Cm Im].
    destruct (day_text_cap _ _ Hd' Hds) as [Cd Id].
    destruct (head_cons _ _ (match_day_end ds
      (set_group Dirm ms (set_group DirY (pad4 (year dt)) no_groups)) Cd))
      as [l Hl].
    eapply (strptime_found _ YearMonthDay).
    + unfold pattern_items. rewrite match_year by done.
      change ("-" +:+ ms +:+ "-" +:+ ds) with (String "-" (ms +:+ String "-" ds)).
      rewrite match_lit, match_month_lit by (done || by left). exact Hl.
    + unfold date_of_groups. simpl. rewrite py_int_pad4 by done. simpl.
      rewrite Im. simpl. rewrite Id. simpl. by apply make_date_valid.
  - destruct Hp as (Hday & ms & Hms & ->).
    destruct (month_text_cap _ _ Hm Hms) as [Cm Im].
    destruct (head_cons _ _ (match_month_end ms
      (set_group DirY (pad4 (year dt)) no_groups) Cm)) as [l Hl].
    eapply (strptime_found _ YearMonth).
    + unfold pattern_items. rewrite match_year by done.
      change ("-" +:+ ms) with (String "-" ms).
      rewrite match_lit. exact Hl.
    + unfold date_of_groups. simpl. rewrite py_int_pad4 by done. simpl.
      rewrite Im. simpl. rewrite <-Hday. by apply make_date_valid.
  - destruct Hp as (Hday & ms & Hms & ->).
    destruct (month_text_cap _ _ Hm Hms) as [Cm Im].
    eapply (strptime_found _ MonthYear).
    + unfold pattern_items.
      change (ms +:+ "/" +:+ pad4 (year dt))
        with (ms +:+ String "/" (pad4 (year dt))).
      rewrite match_month_lit by (done || by right).
      by rewrite match_year_end.
    + unfold date_of_groups. simpl. rewrite py_int_pad4 by done. simpl.
      rewrite Im. simpl. rewrite <-Hday. by apply make_date_valid.
  - destruct Hp as (Hmonth & Hday & ->).
    eapply (strptime_found _ YearOnly).
    + unfold pattern_items. by rewrite match_year_end.
    + unfold date_of_groups. simpl. rewrite py_int_pad4 by done. simpl.
      rewrite <-Hmonth at 1. rewrite <-Hday. by apply make_date_valid.
Qed.

(** [strptime] with an accepted format succeeds exactly on the texts
    its pattern describes. *)
Lemma strptime_reads p s dt :
  strptime s (pattern_format p) = Returned dt ↔ reads p s dt.
Proof. split; [apply strptime_reads_1|apply strptime_reads_2]. Qed.

(** ** [format_date] *)

Lemma only_value_error_bind {A B} (r : result A) (k : A → result B) :
  only_value_error r → (∀ a, only_value_error (k a)) →
  only_value_error (r ≫= k).
Proof.
  intros Hr Hk e. destruct r as [a|e']; simpl; [apply Hk|].
  intros [= ->]. by apply Hr.
Qed.

Lemma only_value_error_returned {A} (a : A) : only_value_error (Returned a).
Proof. by intros e. Qed.

Lemma only_value_error_raised {A} msg :
  only_value_error (Raised (A := A) (ValueError msg)).
Proof. intros e [= <-]. by eexists. Qed.

Lemma parse_format_raises fmt : only_value_error (parse_format fmt).
Proof.
  assert (H : ∀ n fmt, (String.length fmt ≤ n)%nat →
                       only_value_error (parse_format fmt)).
  { clear fmt. induction n as [|n IH]; intros [|c [|k r]] Hl; simpl in *;
      try lia; try apply only_value_error_returned.
    - destruct (ascii_eqb c "%");
        [apply only_value_error_raised|apply only_value_error_returned].
    - destruct (ascii_eqb c "%").
      + apply only_value_error_bind; [apply IH; lia|].
        intros its. repeat case_match;
          (apply only_value_error_returned || apply only_value_error_raised).
      + apply only_value_error_bind; [apply (IH (String k r)); simpl; lia|].
        intros its. apply only_value_error_returned. }
  by apply (H (String.length fmt)).
Qed.

Lemma int_digits_raises acc s : only_value_error (int_digits acc s).
Proof.
  revert acc. induction s as [|c s IH]; intros acc; simpl.
  - apply only_value_error_returned.
  - destruct (is_digit c); [apply IH|apply only_value_error_raised].
Qed.

Lemma int_group_raises v dflt : only_value_error (int_group v dflt).
Proof.
  destruct v as [s|]; simpl; [|apply only_value_error_returned].
  unfold py_int. destruct (strip s);
    [apply only_value_error_raised|apply int_digits_raises].
Qed.

Lemma make_date_raises y m d : only_value_error (make_date y m d).
Proof.
  unfold make_date. repeat case_match;
    (apply only_value_error_returned || apply only_value_error_raised).
Qed.

(** [strptime] raises nothing but [ValueError]. *)
Lemma strptime_raises s fmt : only_value_error (strptime s fmt).
Proof.
  unfold strptime. apply only_value_error_bind; [apply parse_format_raises|].
  intros its. destruct (match_items its s no_groups) as [|[found rest] l];
    [apply only_value_error_raised|].
  destruct (negb (str_empty rest)); [apply only_value_error_raised|].
  repeat (apply only_value_error_bind; [apply int_group_raises|intros ?]).
  apply make_date_raises.
Qed.

Lemma strftime_date_text dt : strftime dt "%Y-%m-%d" = date_text dt.
Proof. reflexivity. Qed.

Lemma iso_text_shape dt : is_iso_date (iso_text dt) = true.
Proof.
  cbv [iso_text pad4 pad2 String.append is_iso_date].
  by rewrite !(proj1 (digit_char_digit _)).
Qed.

(** A year of four digits is printed as they are; a year below 1000
    on at most three characters. *)
Lemma pretty_four_digits y : 1000 ≤ y ≤ 9999 → pretty y = pad4 y.
Proof.
  intros Hy.
  assert (Hall : forallb (λ n : nat, String.eqb (pretty (Z.of_nat n))
                                       (pad4 (Z.of_nat n)))
                   (seq (Z.to_nat 1000) (Z.to_nat 9000)) = true) by (vm_compute; reflexivity).
  rewrite forallb_forall in Hall. specialize (Hall (Z.to_nat y)).
  rewrite Z2Nat.id in Hall by lia. apply String.eqb_eq, Hall.
  apply in_seq. lia.
Qed.

Lemma pretty_short y : 0 ≤ y < 1000 → (String.length (pretty y) ≤ 3)%nat.
Proof.
  intros Hy.
  assert (Hall : forallb (λ n : nat,
                            Nat.leb (String.length (pretty (Z.of_nat n))) 3)
                   (seq 0 (Z.to_nat 1000)) = true) by (vm_compute; reflexivity).
  rewrite forallb_forall in Hall. specialize (Hall (Z.to_nat y)).
  rewrite Z2Nat.id in Hall by lia. apply Nat.leb_le, Hall.
  apply in_seq. lia.
Qed.

Lemma date_text_iso dt : 1000 ≤ year dt ≤ 9999 → date_text dt = iso_text dt.
Proof. intros H. unfold date_text, iso_text. by rewrite pretty_four_digits. Qed.

Lemma is_iso_date_length s : is_iso_date s = true → String.length s = 10%nat.
Proof.
  do 10 (destruct s as [|? s]; [done|]). by destruct s.
Qed.

Lemma date_text_length dt :
  String.length (date_text dt) = (String.length (pretty (year dt)) + 6)%nat.
Proof. unfold date_text. by rewrite !length_append. Qed.

(** The text of a date has the form [YYYY-MM-DD] exactly when the year
    has four digits. *)
Lemma date_text_iso_iff dt :
  valid_date dt → is_iso_date (date_text dt) = true ↔ 1000 ≤ year dt.
Proof.
  intros (Hy & _). split.
  - intros Hl%is_iso_date_length. rewrite date_text_length in Hl.
    destruct (decide (1000 ≤ year dt)) as [|Hn]; [done|].
    pose proof (pretty_short (year dt)). lia.
  - intros H. rewrite date_text_iso by lia. apply iso_text_shape.
Qed.

Lemma format_date_loop_spec s ps :
  ∃ out, format_date_loop s (pattern_format <$> ps) = Returned out
  ∧ match out with
    | Some iso =>
        ∃ pre p post dt,
          ps = pre ++ p :: post
          ∧ (∀ q dt', q ∈ pre → ¬ reads q s dt')
          ∧ reads p s dt ∧ iso = date_text dt
    | None => ∀ q dt', q ∈ ps → ¬ reads q s dt'
    end.
Proof.
  induction ps as [|p ps IH].
  - exists None. split; [done|]. by intros q dt' ?%elem_of_nil.
  - rewrite fmap_cons. cbn [format_date_loop].
    destruct (strptime s (pattern_format p)) as [dt|e] eqn:E.
    + exists (Some (date_text dt)). split; [reflexivity|].
      exists [], p, ps, dt. split; [done|].
      split; [by intros q dt' ?%elem_of_nil|].
      split; [by apply strptime_reads|done].
    + destruct (strptime_raises _ _ _ E) as [msg ->].
      destruct IH as (out & -> & Hout). exists out. split; [done|].
      assert (Hp : ∀ dt', ¬ reads p s dt').
      { intros dt' H%strptime_reads. congruence. }
      destruct out as [iso|].
      * destruct Hout as (pre & p' & post & dt & -> & Hpre & Hr & ->).
        exists (p :: pre), p', post, dt. split; [done|].
        split; [|done].
        intros q dt' [->|Hq]%elem_of_cons; [apply Hp|by apply Hpre].
      * intros q dt' [->|Hq]%elem_of_cons; [apply Hp|by apply Hout].
Qed.

(** C2. A text of four digits whose year is below 1000 is accepted as
    a year, and the date comes back with the year on three characters:
    ["0999"] gives ["999-01-01"], which is not of the form [YYYY-MM-DD]
    and which the normaliser itself no longer accepts. *)
Theorem format_date_year_below_1000 :
  format_date (Some "0999") = Returned (Some "999-01-01")
  ∧ is_iso_date "999-01-01" = false
  ∧ format_date (Some "999-01-01") = Returned None
  ∧ format_date (Some "0999-03-04") = Returned (Some "999-03-04")
  ∧ format_date (Some "03/0042") = Returned (Some "42-03-01").
Proof. repeat split; by vm_compute. Qed.

(** X20. The date normaliser never raises.  It gives no date for an
    absent or empty text.  For any other text (of code points below 256)
    it tries the four patterns in order (year-month-day, year-month,
    month/year, year) and gives the date read by the first that accepts
    the text, with 1 for what the text does not give, written as the
    year in decimal and the month and the day on two digits: the form
    [YYYY-MM-DD] exactly when the year is at least 1000.  When no pattern
    accepts the text, it gives no date. *)
Theorem format_date_first_pattern (date_str : option string) :
  ∃ out, format_date date_str = Returned out
  ∧ (truthy date_str = false → out = None)
  ∧ (∀ s, date_str = Some s → s ≠ "" →
       match out with
       | Some text =>
           ∃ pre p post dt,
             patterns = pre ++ p :: post
             ∧ (∀ q dt', q ∈ pre → ¬ reads q s dt')
             ∧ reads p s dt
             ∧ text = date_text dt
             ∧ (is_iso_date text = true ↔ 1000 ≤ year dt)
       | None => ∀ q dt', q ∈ patterns → ¬ reads q s dt'
       end)
  ∧ format_date (Some "2020-05-07") = Returned (Some "2020-05-07")
  ∧ format_date (Some "2020-05") = Returned (Some "2020-05-01")
  ∧ format_date (Some "05/2020") = Returned (Some "2020-05-01")
  ∧ format_date (Some "2020") = Returned (Some "2020-01-01")
  ∧ format_date (Some "not a date") = Returned None
  ∧ format_date (Some "") = Returned None.
Proof.
  destruct date_str as [[|c s]|].
  - exists None. repeat split; try done. by intros s [= <-] ?.
  - destruct (format_date_loop_spec (String c s) patterns) as (out & Ho & Hs).
    exists out. split; [exact Ho|]. split; [done|].
    split; [|by repeat split].
    intros s' [= <-] _. destruct out as [iso|]; [|done].
    destruct Hs as (pre & p & post & dt & -> & Hpre & Hr & ->).
    exists pre, p, post, dt. split; [done|]. split; [done|].
    split; [done|]. split; [done|]. apply date_text_iso_iff.
    by destruct Hr.
  - exists None. repeat split; try done.
Qed.

Lemma format_date_first_pattern_witness :
  ∃ out, format_date (Some "2020-05") = Returned out
         ∧ match out with
           | Some text =>
               ∃ pre p post dt,
                 patterns = pre ++ p :: post
                 ∧ (∀ q dt', q ∈ pre → ¬ reads q "2020-05" dt')
                 ∧ reads p "2020-05" dt
                 ∧ text = date_text dt
                 ∧ (is_iso_date text = true ↔ 1000 ≤ year dt)
           | None => ∀ q dt', q ∈ patterns → ¬ reads q "2020-05" dt'
           end.
Proof.
  destruct (format_date_first_pattern (Some "2020-05"))
    as (out & Hout & _ & Hs & _).
  exists out. split; [exact Hout|].
  apply (Hs "2020-05"); [reflexivity|discriminate].
Defined.

Lemma format_date_total date_str : ∃ out, format_date date_str = Returned out.
Proof.
  destruct date_str as [[|c s]|]; try by eexists.
  destruct (format_date_loop_spec (String c s) patterns) as (out & Ho & _).
  by exists out.
Qed.

(** ** The creation request of an item *)

Lemma build_properties_returns doi_type it :
  build_properties doi_type it = Returned (properties_of doi_type it).
Proof.
  unfold properties_of, build_properties.
  destruct (format_date_total (date it)) as [d ->]. done.
Qed.

Lemma build_properties_title doi_type it props :
  build_properties doi_type it = Returned props →
  props !! "Title" = Some (PTitle [{| text_content := title it |}]).
Proof.
  unfold build_properties.
  destruct (format_date_total (date it)) as [d ->]. simpl. intros [= <-].
  repeat case_match; by simplify_map_eq.
Qed.

Lemma payload_of_title db doi_type it :
  payload_title (payload_of db doi_type it) = title it.
Proof.
  unfold payload_title, payload_of. simpl.
  by rewrite (build_properties_title doi_type it _
                (build_properties_returns doi_type it)).
Qed.

(** ** Replies *)

Lemma raise_for_status_failure {B} url (r : reply B) :
  is_failure r = true →
  ∃ msg info, raise_for_status url r = Raised (RequestException msg info)
              ∧ (info = None ↔ ∃ m, r = ConnFailed m).
Proof.
  destruct r as [m|sc reason text body]; simpl.
  - intros _. eexists _, _. split; [done|]. split; [by eexists|done].
  - intros [H1 H2]%andb_true_iff.
    destruct ((400 <=? sc) && (sc <? 500)) eqn:E1.
    + eexists _, _. split; [done|]. split; [done|by intros [? ?]].
    + assert ((500 <=? sc) && (sc <? 600) = true) as -> by lia.
      eexists _, _. split; [done|]. split; [done|by intros [? ?]].
Qed.

Lemma raise_for_status_ok {B} url (r : reply B) :
  is_failure r = false → ∃ body, raise_for_status url r = Returned body.
Proof.
  destruct r as [m|sc reason text body]; simpl; [done|].
  intros H. assert ((400 <=? sc) && (sc <? 500) = false) as -> by lia.
  assert ((500 <=? sc) && (sc <? 600) = false) as -> by lia. by eexists.
Qed.

Lemma raise_for_status_raises {B} url (r : reply B) e :
  raise_for_status url r = Raised e →
  is_failure r = true ∧ ∃ msg info, e = RequestException msg info.
Proof.
  destruct (is_failure r) eqn:E.
  - destruct (raise_for_status_failure url r E) as (msg & info & -> & _).
    intros [= <-]. eauto.
  - destruct (raise_for_status_ok url r E) as (body & ->). done.
Qed.

(** ** The push loop *)

Lemma submissions_app tr1 tr2 :
  submissions (tr1 ++ tr2) = submissions tr1 ++ submissions tr2.
Proof. apply omap_app. Qed.

Lemma submissions_cons url h p r tr :
  submissions (Submitted url h p r :: tr) = (p, r) :: submissions tr.
Proof. done. Qed.

Lemma accepted_cons p (r : reply unit) subs :
  length (filter accepted ((p, r) :: subs))
  = ((if is_failure r then 0 else 1) + length (filter accepted subs))%nat.
Proof.
  rewrite filter_cons. case_decide as H; unfold accepted in H; simpl in H;
    by destruct (is_failure r).
Qed.

Section SyncProperties.
Context {World : Type} (N : Notion World).

(** What one run of the loop does: it always returns; it sends one
    creation request per item whose title is not in the index, in
    order; it counts the others as skipped and the accepted requests
    as pushed; it logs every failure. *)
Lemma push_items_spec token db existing ty items counts st :
  ∃ counts' st' evs lines,
    push_items N token db existing ty items counts st
    = (Returned counts', st')
    ∧ trace st' = trace st ++ evs
    ∧ log st' = log st ++ lines
    ∧ Forall2 (submits token db ty) evs (filter (is_new existing) items)
    ∧ skipped counts'
      = (skipped counts + length (filter (is_known existing) items))%nat
    ∧ pushed counts'
      = (pushed counts + length (filter accepted (submissions evs)))%nat
    ∧ concat (failure_lines <$> submissions evs) `sublist_of` lines.
Proof.
  revert counts st. induction items as [|it items IH]; intros counts st.
  - exists counts, st, [], []. simpl. rewrite !app_nil_r.
    repeat split; try done; lia.
  - cbn [push_items]. rewrite !filter_cons.
    destruct (decide (title it ∈ existing)) as [Hin|Hin].
    + rewrite bool_decide_eq_true_2 by done.
      rewrite (decide_False (P := is_new existing it)) by (by intros []).
      rewrite (decide_True (P := is_known existing it)) by done.
      edestruct IH as (c' & st' & evs & lines & -> & Ht & Hl & HF & Hs & Hp
                       & Hsub).
      eexists c', st', evs, (_ :: lines).
      split; [done|]. split; [exact Ht|].
      split; [rewrite Hl; simpl; by rewrite <-app_assoc|].
      split; [done|]. split; [rewrite Hs; simpl; lia|].
      split; [exact Hp|]. by apply sublist_cons.
    + rewrite bool_decide_eq_false_2 by done.
      rewrite (decide_True (P := is_new existing it)) by done.
      rewrite (decide_False (P := is_known existing it)) by done.
      rewrite build_properties_returns.
      destruct (post_page N pages_url (json_headers token) _ (world st))
        as [r w] eqn:Er.
      destruct (is_failure r) eqn:Ef.
      * destruct (raise_for_status_failure pages_url r Ef)
          as (msg & info & Hr & _).
        rewrite Hr.
        destruct info as [i|];
        (edestruct IH as (c' & st' & evs & lines & -> & Ht & Hl & HF & Hs
                         & Hp & Hsub);
        eexists c', st', (_ :: evs),
          (failure_lines (payload_of db ty it, r) ++ lines);
        (split; [done|]);
        (split; [rewrite Ht; simpl; by rewrite <-app_assoc|]);
        (split; [rewrite Hl; unfold failure_lines; simpl;
                 rewrite Hr, payload_of_title; simpl;
                 by rewrite <-!app_assoc|]);
        (split; [constructor; [by eexists|done]|]);
        (split; [exact Hs|]);
        split;
        [rewrite Hp, submissions_cons, accepted_cons, Ef; simpl; lia
        |simpl; by apply sublist_app]).

      * destruct (raise_for_status_ok pages_url r Ef) as (body & Hr).
        rewrite Hr.
        edestruct IH as (c' & st' & evs & lines & -> & Ht & Hl & HF & Hs
                         & Hp & Hsub).
        eexists c', st', (_ :: evs), (_ :: lines).
        split; [done|]. split; [rewrite Ht; simpl; by rewrite <-app_assoc|].
        split; [rewrite Hl; simpl; by rewrite <-app_assoc|].
        split; [constructor; [by eexists|done]|].
        split; [exact Hs|].
        split; [rewrite Hp, submissions_cons, accepted_cons, Ef; simpl; lia|].
        simpl. unfold failure_lines at 1. simpl. rewrite Hr. simpl.
        by apply sublist_cons.
Qed.
End SyncProperties.

(** ** The title index and the schema *)

Section LookupProperties.
Context {World : Type} (N : Notion World).

(** The page loop sends queries only; when it returns the index every
    query succeeded, and what it raises comes from a failed query. *)
Lemma fetch_pages_spec fuel token db cursor existing st r st' :
  fetch_pages N fuel token db cursor existing st = Some (r, st') →
  ∃ evs, trace st' = trace st ++ evs
         ∧ submissions evs = []
         ∧ match r with
           | Returned _ => Forall (λ ev, lookup_failed ev = false) evs
           | Raised e => ∃ msg info, e = RequestException msg info
           end.
Proof.
  revert cursor existing st.
  induction fuel as [|fuel IH]; intros cursor existing st; [done|].
  cbn [fetch_pages].
  destruct (post_query N _ _ _ (world st)) as [q w] eqn:Eq.
  destruct (raise_for_status (query_url db) q) as [data|e] eqn:Er.
  - destruct (has_more data).
    + intros H. apply IH in H as (evs & Ht & Hs & Hr).
      exists (Queried (query_url db) (json_headers token)
                {| page_size := 100;
                   start_cursor := if truthy cursor then cursor else None |}
                q :: evs).
      split; [rewrite Ht; simpl; by rewrite <-app_assoc|].
      split; [done|].
      destruct r; [|done]. constructor; [|done]. simpl.
      destruct (is_failure q) eqn:Ef; [|done].
      destruct (raise_for_status_failure (query_url db) q Ef)
        as (? & ? & ? & _). congruence.
    + intros [= <- <-]. eexists [_]. split; [done|]. split; [done|].
      constructor; [|done]. simpl.
      destruct (is_failure q) eqn:Ef; [|done].
      destruct (raise_for_status_failure (query_url db) q Ef)
        as (? & ? & ? & _). congruence.
  - destruct (raise_for_status_raises _ _ _ Er) as (_ & msg & info & ->).
    intros [= <- <-]. eexists [_]. split; [done|]. split; [done|]. eauto.
Qed.

Lemma get_existing_notion_titles_spec fuel token db st r st' :
  get_existing_notion_titles N fuel token db st = Some (r, st') →
  ∃ evs, trace st' = trace st ++ evs
         ∧ submissions evs = []
         ∧ match r with
           | Returned _ => Forall (λ ev, lookup_failed ev = false) evs
           | Raised e => ∃ msg info, e = RequestException msg info
           end.
Proof.
  unfold get_existing_notion_titles.
  destruct (fetch_pages N fuel token db None ∅ st) as [[r0 st0]|] eqn:E;
    [|done].
  apply fetch_pages_spec in E as (evs & Ht & Hs & Hr).
  destruct r0; intros [= <- <-]; by exists evs.
Qed.

Lemma get_database_properties_spec token db st r st' :
  get_database_properties N token db st = (r, st') →
  ∃ ev, trace st' = trace st ++ [ev]
        ∧ submission ev = None
        ∧ match r with
          | Returned _ => lookup_failed ev = false
          | Raised e =>
              lookup_failed ev = true
              ∧ ∃ msg info, e = RequestException msg info
          end.
Proof.
  unfold get_database_properties.
  destruct (get_database N _ _ (world st)) as [q w] eqn:Eq.
  destruct (raise_for_status (database_url db) q) as [data|e] eqn:Er.
  - intros [= <- <-]. eexists. split; [done|]. split; [done|]. simpl.
    destruct (is_failure q) eqn:Ef; [|done].
    destruct (raise_for_status_failure (database_url db) q Ef)
      as (? & ? & ? & _). congruence.
  - destruct (raise_for_status_raises _ _ _ Er) as (Hf & msg & info & ->).
    intros [= <- <-]. eexists. split; [done|]. split; [done|]. simpl.
    eauto.
Qed.

(** More fuel does not change what the page loop gives. *)
Lemma fetch_pages_fuel fuel k token db cursor existing st x :
  fetch_pages N fuel token db cursor existing st = Some x →
  fetch_pages N (fuel + k) token db cursor existing st = Some x.
Proof.
  revert cursor existing st.
  induction fuel as [|fuel IH]; intros cursor existing st; [done|].
  cbn [fetch_pages Nat.add].
  destruct (post_query N _ _ _ (world st)) as [q w].
  destruct (raise_for_status (query_url db) q) as [data|[]]; try done.
  destruct (has_more data); [apply IH|done].
Qed.

(** A page fetch that fails ends the page loop at once, whatever was
    gathered so far. *)
Lemma fetch_pages_failure fuel token db cursor existing st :
  is_failure
    (post_query N (query_url db) (json_headers token)
       {| page_size := 100;
          start_cursor := if truthy cursor then cursor else None |}
       (world st)).1 = true →
  ∃ msg info st',
    fetch_pages N (S fuel) token db cursor existing st
    = Some (Raised (RequestException msg info), st').
Proof.
  cbn [fetch_pages].
  destruct (post_query N _ _ _ (world st)) as [q w]. simpl. intros Hf.
  destruct (raise_for_status_failure (query_url db) q Hf)
    as (msg & info & -> & _).
  by eexists _, _, _.
Qed.

Lemma get_database_properties_failure token db st :
  is_failure
    (get_database N (database_url db) (plain_headers token) (world st)).1
  = true →
  ∃ msg info st',
    get_database_properties N token db st
    = (Raised (RequestException msg info), st').
Proof.
  unfold get_database_properties.
  destruct (get_database N _ _ (world st)) as [q w]. simpl. intros Hf.
  destruct (raise_for_status_failure (database_url db) q Hf)
    as (msg & info & -> & _).
  by eexists _, _, _.
Qed.

(** A fetch that fails after [n] pages ends the page loop with its
    exception as soon as the fuel reaches it, whatever titles the pages
    before it gave. *)
Lemma fetch_pages_failed_fetch n fuel token db cursor existing st e :
  failed_fetch N token db n cursor (world st) = Some e →
  (n < fuel)%nat →
  ∃ msg info st',
    e = RequestException msg info
    ∧ fetch_pages N fuel token db cursor existing st = Some (Raised e, st')
    ∧ last (log st')
      = Some ("Failed to fetch existing pages from Notion: " +:+ msg)
    ∧ ∃ evs, trace st' = trace st ++ evs ∧ submissions evs = []
             ∧ length evs = S n.
Proof.
  revert fuel cursor existing st.
  induction n as [|n IH]; intros [|fuel] cursor existing st Hf Hlt;
    try lia; cbn [failed_fetch fetch_pages] in *;
    fold (query_for cursor);
    destruct (post_query N (query_url db) (json_headers token)
                (query_for cursor) (world st)) as [q w];
    destruct (raise_for_status (query_url db) q) as [data|e'] eqn:Er;
    try done.
  - injection Hf as ->.
    destruct (raise_for_status_raises _ _ _ Er) as (_ & msg & info & ->).
    eexists msg, info, _. split; [done|]. split; [done|].
    split; [simpl; by rewrite last_snoc|].
    eexists [_]. by repeat split.
  - destruct (has_more data); [|done].
    edestruct (IH fuel (next_cursor data)
                 (foldl add_page existing (results data))
                 (sent w (Queried (query_url db) (json_headers token)
                            (query_for cursor) q) st))
      as (msg & info & st' & -> & Hrun & Hlog & evs & Ht & Hs & Hlen);
      [exact Hf|lia|].
    exists msg, info, st'. split; [done|]. split; [exact Hrun|].
    split; [done|].
    exists (Queried (query_url db) (json_headers token) (query_for cursor) q
            :: evs).
    split; [rewrite Ht; simpl; by rewrite <-app_assoc|].
    split; [done|]. simpl. by rewrite Hlen.
Qed.

(** The run ends with the exception the title index raises. *)
Lemma push_to_notion_index_failure fuel items token db st e st' :
  fetch_pages N fuel token db None ∅ st = Some (Raised e, st') →
  get_existing_notion_titles N fuel token db st = Some (Raised e, st')
  ∧ push_to_notion N fuel items token db st = Some (Raised e, st').
Proof.
  intros H. unfold push_to_notion, get_existing_notion_titles.
  by rewrite H.
Qed.

(** The run ends with the exception of the schema request when that
    one fails. *)
Lemma push_to_notion_schema_failure fuel items token db st existing st1 :
  get_existing_notion_titles N fuel token db st
  = Some (Returned existing, st1) →
  is_failure
    (get_database N (database_url db) (plain_headers token) (world st1)).1
  = true →
  ∃ msg info st',
    get_database_properties N token db st1
    = (Raised (RequestException msg info), st')
    ∧ push_to_notion N fuel items token db st
      = Some (Raised (RequestException msg info), st')
    ∧ last (log st') = Some ("Could not fetch database schema: " +:+ msg)
    ∧ ∃ evs, trace st' = trace st ++ evs ∧ submissions evs = [].
Proof.
  intros H1 Hf. unfold push_to_notion. rewrite H1.
  apply get_existing_notion_titles_spec in H1 as (evs1 & Ht1 & Hs1 & _).
  unfold get_database_properties.
  destruct (get_database N _ _ (world st1)) as [q w]. simpl in Hf.
  destruct (raise_for_status_failure (database_url db) q Hf)
    as (msg & info & -> & _).
  eexists msg, info, _. split; [done|]. split; [done|].
  split; [simpl; by rewrite last_snoc|].
  eexists (evs1 ++ [_]). simpl. rewrite Ht1, <-app_assoc.
  split; [done|]. rewrite submissions_app, Hs1. done.
Qed.

(** A run whose index and schema are built goes through the loop and
    returns [None]. *)
Lemma push_to_notion_spec fuel items token db st existing st1 prop_types st2 :
  get_existing_notion_titles N fuel token db st
  = Some (Returned existing, st1) →
  get_database_properties N token db st1 = (Returned prop_types, st2) →
  let doi_type := default (Some "rich_text") (prop_types !! "DOI") in
  ∃ counts st' evs lines,
    push_to_notion N fuel items token db st = Some (Returned None, st')
    ∧ trace st' = trace st2 ++ evs
    ∧ log st'
      = log st2 ++ ["DOI property type: " +:+ str_of doi_type] ++ lines
        ++ ["Finished. pushed=" +:+ pretty (pushed counts)
            +:+ ", skipped=" +:+ pretty (skipped counts)]
    ∧ Forall2 (submits token db doi_type) evs
        (filter (is_new existing) items)
    ∧ skipped counts = length (filter (is_known existing) items)
    ∧ pushed counts = length (filter accepted (submissions evs))
    ∧ concat (failure_lines <$> submissions evs) `sublist_of` lines.
Proof.
  intros H1 H2 doi_type. unfold push_to_notion. rewrite H1, H2.
  fold doi_type.
  edestruct (push_items_spec N token db existing doi_type items)
    as (c' & st' & evs & lines & -> & Ht & Hl & HF & Hs & Hp & Hsub).
  eexists c', _, evs, lines. split; [done|].
  split; [exact Ht|]. split; [simpl; rewrite Hl; simpl;
                              by rewrite <-!app_assoc|].
  split; [done|]. split; [exact Hs|]. split; [exact Hp|done].
Qed.
End LookupProperties.

(** ** The run as a whole *)

Lemma submits_not_lookup token db ty evs its :
  Forall2 (submits token db ty) evs its →
  Forall (λ ev, lookup_failed ev = false) evs
  ∧ length (submissions evs) = length its.
Proof.
  induction 1 as [|ev it evs its [r ->] _ [IH1 IH2]]; [done|].
  split; [by constructor|]. rewrite submissions_cons. simpl. by rewrite IH2.
Qed.

Lemma Exists_not_Forall_false {A} (f : A → bool) l :
  Exists (λ x, f x = true) l → Forall (λ x, f x = false) l → False.
Proof.
  intros HE HF. apply Exists_exists in HE as (x & Hx & Ht).
  rewrite Forall_forall in HF. specialize (HF x Hx). congruence.
Qed.

Lemma length_filter_split {A} (P Q : A → Prop)
    `{!∀ x, Decision (P x)} `{!∀ x, Decision (Q x)} (l : list A) :
  (∀ x, P x ↔ ¬ Q x) →
  (length (filter P l) + length (filter Q l) = length l)%nat.
Proof.
  intros Hpq. induction l as [|x l IH]; [done|]. rewrite !filter_cons.
  destruct (decide (P x)) as [HP|HP], (decide (Q x)) as [HQ|HQ]; simpl;
    try lia.
  - by apply Hpq in HP.
  - destruct HP. by apply Hpq.
Qed.

(** [eval_eq H t]: the equation [H] between a closed term and its value. *)
Ltac eval_eq H t :=
  let r := eval vm_compute in t in
  assert (H : t = r) by (vm_compute; reflexivity).

(** C1, as stated, fails: the run over "Paper A", "Paper B" returns
    [None], not a record of counts. *)
Lemma demo_run_returns_no_counts : ¬ returns_counts demo_run.
Proof. intros (counts & st & H). vm_compute in H. discriminate H. Qed.

(** C1, amended. Once the title index and the schema are built, the sync
    goes through all items, logs as its last line the final counts
    "Finished. pushed=P, skipped=S", where P is the number of creation
    requests that were accepted and S the number of items whose title is
    in the index, and returns no value. *)
Theorem push_to_notion_logs_counts {World} (N : Notion World) fuel items
    token db st existing st1 prop_types st2 :
  get_existing_notion_titles N fuel token db st
  = Some (Returned existing, st1) →
  get_database_properties N token db st1 = (Returned prop_types, st2) →
  ∃ st' evs,
    push_to_notion N fuel items token db st = Some (Returned None, st')
    ∧ trace st' = trace st2 ++ evs
    ∧ last (log st')
      = Some ("Finished. pushed="
              +:+ pretty (length (filter accepted (submissions evs)))
              +:+ ", skipped="
              +:+ pretty (length (filter (is_known existing) items))).
Proof.
  intros H1 H2.
  destruct (push_to_notion_spec N fuel items token db st existing st1
              prop_types st2 H1 H2)
    as (c & st' & evs & lines & Hrun & Ht & Hl & _ & Hs & Hp & _).
  exists st', evs. split; [done|]. split; [done|].
  rewrite Hl, !app_assoc, last_snoc. by rewrite Hs, Hp.
Qed.

Lemma push_to_notion_logs_counts_witness :
  ∃ st',
    push_to_notion scripted 5 [paper "Paper A"; paper "Paper B"] "secret" "db1"
      (initial_state demo_world) = Some (Returned None, st').
Proof.
  eval_eq H1 (get_existing_notion_titles scripted 5 "secret" "db1"
                (initial_state demo_world)).
  match type of H1 with
  | _ = Some (_, ?st1) =>
      eval_eq H2 (get_database_properties scripted "secret" "db1" st1)
  end.
  destruct (push_to_notion_logs_counts scripted 5
              [paper "Paper A"; paper "Paper B"] "secret" "db1"
              (initial_state demo_world) _ _ _ _ H1 H2)
    as (st' & evs & Hrun & _).
  exists st'. exact Hrun.
Defined.

(** C3. An item whose title is in the title index is counted as skipped
    and no request is sent for it; the index is the same for every turn
    of the loop, so each item whose title is not in it is submitted, in
    order, also when two of them carry the same title.  With "Paper A"
    on the remote side and the items "Paper A", "Paper B", the run
    pushes one, skips one, and submits "Paper B" only. *)
Theorem known_titles_skipped {World} (N : Notion World) token db existing
    doi_type items counts st :
  (∃ counts' st' evs,
     push_items N token db existing doi_type items counts st
     = (Returned counts', st')
     ∧ trace st' = trace st ++ evs
     ∧ skipped counts'
       = (skipped counts + length (filter (is_known existing) items))%nat
     ∧ Forall2 (submits token db doi_type) evs
         (filter (is_new existing) items)
     ∧ (payload_title ∘ fst) <$> submissions evs
       = title <$> filter (is_new existing) items)
  ∧ (∃ st, push_to_notion scripted 5 [paper "Paper A"; paper "Paper B"]
             "secret" "db1" (initial_state demo_world)
           = Some (Returned None, st)
           ∧ last (log st) = Some "Finished. pushed=1, skipped=1"
           ∧ (payload_title ∘ fst) <$> submissions (trace st)
             = [Some "Paper B"])
  ∧ (∃ st, push_to_notion scripted 5 [paper "Paper C"; paper "Paper C"]
             "secret" "db1" (initial_state demo_world)
           = Some (Returned None, st)
           ∧ (payload_title ∘ fst) <$> submissions (trace st)
             = [Some "Paper C"; Some "Paper C"]).
Proof.
  split; [|split].
  - destruct (push_items_spec N token db existing doi_type items counts st)
      as (c' & st' & evs & lines & Hrun & Ht & _ & HF & Hs & _).
    exists c', st', evs. repeat (split; [done|]).
    clear -HF. induction HF as [|ev it evs its [r ->] _ IH]; [done|].
    rewrite submissions_cons, !fmap_cons, IH. simpl.
    by rewrite payload_of_title.
  - eexists. split; [vm_compute; reflexivity|]. by vm_compute.
  - eexists. split; [vm_compute; reflexivity|]. by vm_compute.
Qed.

(** C4. A submission that fails is logged, with the text of the remote
    answer when there is one, counts neither as pushed nor as skipped,
    and the loop goes on: every item whose title is not in the index
    gets its request, and pushed + skipped + failed is the number of
    items. *)
Theorem failed_submission_continues {World} (N : Notion World) token db
    existing doi_type items counts st :
  (∃ counts' st' evs lines,
     push_items N token db existing doi_type items counts st
     = (Returned counts', st')
     ∧ trace st' = trace st ++ evs
     ∧ log st' = log st ++ lines
     ∧ Forall2 (submits token db doi_type) evs
         (filter (is_new existing) items)
     ∧ (pushed counts' + skipped counts'
        + length (filter (λ sub, is_failure sub.2) (submissions evs))
        = pushed counts + skipped counts + length items)%nat
     ∧ concat (failure_lines <$> submissions evs) `sublist_of` lines)
  ∧ (∀ p m,
       failure_lines (p, ConnFailed m)
       = ["Failed to push '" +:+ str_of (payload_title p) +:+ "': " +:+ m])
  ∧ (∀ p sc reason text,
       is_failure (Response sc reason text ()) = true →
       ∃ msg, failure_lines (p, Response sc reason text ())
              = ["Failed to push '" +:+ str_of (payload_title p) +:+ "': "
                 +:+ msg;
                 "   Reason: " +:+ text])
  ∧ (∃ st, push_to_notion scripted 5
             [paper "Paper B"; paper "Paper C"; paper "Paper D"]
             "secret" "db1" (initial_state flaky_world)
           = Some (Returned None, st)
           ∧ (payload_title ∘ fst) <$> submissions (trace st)
             = [Some "Paper B"; Some "Paper C"; Some "Paper D"]
           ∧ last (log st) = Some "Finished. pushed=1, skipped=0").
Proof.
  split; [|split; [|split]].
  - destruct (push_items_spec N token db existing doi_type items counts st)
      as (c' & st' & evs & lines & Hrun & Ht & Hl & HF & Hs & Hp & Hsub).
    exists c', st', evs, lines. repeat (split; [done|]). split; [|done].
    destruct (submits_not_lookup _ _ _ _ _ HF) as [_ Hlen].
    assert (H1 : (length (filter accepted (submissions evs))
                  + length (filter (λ sub, is_failure sub.2) (submissions evs))
                  = length (submissions evs))%nat).
    { apply length_filter_split. intros [p r]. unfold accepted. simpl.
      destruct (is_failure r); simpl; naive_solver. }
    assert (H2 : (length (filter (is_new existing) items)
                  + length (filter (is_known existing) items)
                  = length items)%nat).
    { apply length_filter_split. intros it. unfold is_new, is_known. done. }
    rewrite Hs, Hp. lia.
  - done.
  - intros p sc reason text Hf. unfold failure_lines.
    destruct (raise_for_status_failure pages_url _ Hf)
      as (msg & info & Hr & Hi).
    cbn [snd fst]. rewrite Hr.
    assert (raise_for_status pages_url (Response sc reason text ())
            = Raised (RequestException msg (Some {| resp_text := text |})))
      as Hr'.
    { rewrite Hr. simpl in Hr. repeat case_match; by simplify_eq. }
    rewrite Hr in Hr'. injection Hr' as ->. by exists msg.
  - eexists. split; [vm_compute; reflexivity|]. by vm_compute.
Qed.

Lemma failed_submission_continues_witness :
  ∃ msg, failure_lines (payload_of "db1" None (paper "Paper B"),
                        Response 400 "Bad Request" "validation_error" ())
         = ["Failed to push 'Paper B': " +:+ msg;
            "   Reason: validation_error"].
Proof.
  destruct (proj1 (proj2 (proj2
              (failed_submission_continues scripted "secret" "db1" ∅ None []
                 {| pushed := 0; skipped := 0 |} (initial_state demo_world))))
              (payload_of "db1" None (paper "Paper B")) 400 "Bad Request"
              "validation_error" eq_refl) as [msg H].
  exists msg. rewrite H. by rewrite payload_of_title.
Defined.

(** C8. When a request of the title index or of the schema fails (the
    transport raises or the status is an HTTP error), the sync ends with
    that exception: a page fetch that fails, at the first page or after
    any number of pages that announce more, makes the page loop, the
    title index and the whole sync return its exception, whatever titles
    were gathered before it; a failing schema request after the index is
    built makes the sync return its exception; and in both cases no
    creation request is sent.  No finished run with a failed lookup in
    its trace returns an index or submits anything. *)
Theorem lookup_failure_aborts {World} (N : Notion World) fuel token db st :
  (∀ n e items,
     failed_fetch N token db n None (world st) = Some e →
     (n < fuel)%nat →
     ∃ msg info st',
       e = RequestException msg info
       ∧ get_existing_notion_titles N fuel token db st
         = Some (Raised e, st')
       ∧ push_to_notion N fuel items token db st = Some (Raised e, st')
       ∧ last (log st')
         = Some ("Failed to fetch existing pages from Notion: " +:+ msg)
       ∧ ∃ evs, trace st' = trace st ++ evs ∧ submissions evs = [])
  ∧ (∀ n e cursor existing,
       failed_fetch N token db n cursor (world st) = Some e →
       (n < fuel)%nat →
       ∃ st', fetch_pages N fuel token db cursor existing st
              = Some (Raised e, st'))
  ∧ (∀ existing st1 items,
       get_existing_notion_titles N fuel token db st
       = Some (Returned existing, st1) →
       is_failure
         (get_database N (database_url db) (plain_headers token)
            (world st1)).1 = true →
       ∃ msg info st',
         get_database_properties N token db st1
         = (Raised (RequestException msg info), st')
         ∧ push_to_notion N fuel items token db st
           = Some (Raised (RequestException msg info), st')
         ∧ last (log st')
           = Some ("Could not fetch database schema: " +:+ msg)
         ∧ ∃ evs, trace st' = trace st ++ evs ∧ submissions evs = [])
  ∧ (∀ cursor existing,
     is_failure
       (post_query N (query_url db) (json_headers token)
          {| page_size := 100;
             start_cursor := if truthy cursor then cursor else None |}
          (world st)).1 = true →
     ∃ msg info st1,
       fetch_pages N (S fuel) token db cursor existing st
       = Some (Raised (RequestException msg info), st1))
  ∧ (is_failure
       (get_database N (database_url db) (plain_headers token) (world st)).1
     = true →
     ∃ msg info st1,
       get_database_properties N token db st
       = (Raised (RequestException msg info), st1))
  ∧ (∀ r st1 evs,
     get_existing_notion_titles N fuel token db st = Some (r, st1) →
     trace st1 = trace st ++ evs →
     Exists (λ ev, lookup_failed ev = true) evs →
     ∃ msg info, r = Raised (RequestException msg info))
  ∧ (∀ items r st' evs,
       push_to_notion N fuel items token db st = Some (r, st') →
       trace st' = trace st ++ evs →
       Exists (λ ev, lookup_failed ev = true) evs →
       (∃ msg info, r = Raised (RequestException msg info))
       ∧ submissions evs = []).
Proof.
  split.
  { intros n e items Hf Hlt.
    destruct (fetch_pages_failed_fetch N n fuel token db None ∅ st e Hf Hlt)
      as (msg & info & st' & He & Hrun & Hlog & evs & Ht & Hs & _).
    destruct (push_to_notion_index_failure N fuel items token db st e st'
                Hrun) as [Hi Hp].
    exists msg, info, st'. split; [done|]. split; [done|]. split; [done|].
    split; [done|]. by exists evs. }
  split.
  { intros n e cursor existing Hf Hlt.
    destruct (fetch_pages_failed_fetch N n fuel token db cursor existing st
                e Hf Hlt) as (msg & info & st' & _ & Hrun & _).
    by exists st'. }
  split; [intros existing st1 items;
          apply push_to_notion_schema_failure|].
  split; [intros cursor existing; apply fetch_pages_failure|].
  split; [apply get_database_properties_failure|].
  split.
  - intros r st1 evs Hrun Ht HE.
    apply get_existing_notion_titles_spec in Hrun as (evs' & Ht' & _ & Hr).
    rewrite Ht' in Ht. apply app_inv_head in Ht as <-.
    destruct r as [ex|e].
    + destruct (Exists_not_Forall_false _ _ HE Hr).
    + destruct Hr as (msg & info & ->). eauto.
  - intros items r st' evs Hrun Ht HE. unfold push_to_notion in Hrun.
    destruct (get_existing_notion_titles N fuel token db st)
      as [[[ex|e] st1]|] eqn:E1; [| |done].
    + apply get_existing_notion_titles_spec in E1 as (evs1 & Ht1 & Hs1 & Hr1).
      destruct (get_database_properties N token db st1) as [[pt|e] st2] eqn:E2.
      * apply get_database_properties_spec in E2 as (ev & Ht2 & Hs2 & Hr2).
        edestruct (push_items_spec N token db ex
                     (default (Some "rich_text") (pt !! "DOI")) items)
          as (c' & st3 & evs3 & lines & Hrun3 & Ht3 & _ & HF & _).
        rewrite Hrun3 in Hrun. injection Hrun as <- <-.
        simpl in Ht. rewrite Ht3 in Ht. simpl in Ht.
        rewrite Ht2, Ht1, <-!app_assoc in Ht. apply app_inv_head in Ht as <-.
        destruct (submits_not_lookup _ _ _ _ _ HF) as [Hok _].
        destruct (Exists_not_Forall_false _ _ HE).
        apply Forall_app. split; [done|]. apply Forall_app. split; [|done].
        by constructor.
      * apply get_database_properties_spec in E2
          as (ev & Ht2 & Hs2 & _ & msg & info & ->).
        injection Hrun as <- <-.
        rewrite Ht2, Ht1, <-!app_assoc in Ht. apply app_inv_head in Ht as <-.
        split; [eauto|]. rewrite submissions_app, Hs1. simpl.
        unfold submissions. simpl. by rewrite Hs2.
    + apply get_existing_notion_titles_spec in E1
        as (evs1 & Ht1 & Hs1 & msg & info & ->).
      injection Hrun as <- <-. rewrite Ht1 in Ht.
      apply app_inv_head in Ht as <-. split; [eauto|done].
Qed.

Lemma lookup_failure_aborts_witness :
  (∃ st', push_to_notion scripted 5 [paper "Paper B"] "secret" "db1"
            (initial_state broken_index_world)
          = Some (Raised (RequestException "connection reset" None), st'))
  ∧ (∃ msg info st',
       push_to_notion scripted 5 [paper "Paper B"] "secret" "db1"
         (initial_state broken_schema_world)
       = Some (Raised (RequestException msg info), st')).
Proof.
  split.
  - destruct (proj1 (lookup_failure_aborts scripted 5 "secret" "db1"
                       (initial_state broken_index_world))
                1%nat (RequestException "connection reset" None)
                [paper "Paper B"])
      as (msg & info & st' & _ & _ & H & _).
    + vm_compute. reflexivity.
    + lia.
    + by exists st'.
  - eval_eq Hi (get_existing_notion_titles scripted 5 "secret" "db1"
                  (initial_state broken_schema_world)).
    destruct (proj1 (proj2 (proj2
                (lookup_failure_aborts scripted 5 "secret" "db1"
                   (initial_state broken_schema_world))))
                _ _ [paper "Paper B"] Hi)
      as (msg & info & st' & _ & H & _).
    + vm_compute. reflexivity.
    + by exists msg, info, st'.
Defined.

(** The same when the schema request is the one that fails. *)
Lemma schema_failure_demo :
  ∃ msg info st',
    push_to_notion scripted 5 [paper "Paper B"] "secret" "db1"
      (initial_state broken_schema_world)
    = Some (Raised (RequestException msg info), st')
    ∧ submissions (trace st') = []
    ∧ last (log st') = Some ("Could not fetch database schema: " +:+ msg).
Proof. eexists _, _, _. split; [vm_compute; reflexivity|]. by vm_compute. Qed.

(** ** The DOI field *)

Lemma startswith_prefix p s :
  startswith p s = true ↔ ∃ rest, s = p +:+ rest.
Proof.
  revert s. induction p as [|a p IH]; intros s; simpl.
  - split; [by exists s|done].
  - destruct s as [|b s].
    + split; [done|]. by intros [rest ?].
    + rewrite andb_true_iff, ascii_eqb_true, IH. split.
      * intros [-> [rest ->]]. by exists rest.
      * intros [rest [= -> ->]]. split; [done|by exists rest].
Qed.

Lemma properties_of_doi doi_type it :
  properties_of doi_type it !! "DOI"
  = match doi it with
    | Some d =>
        if str_empty (strip d) then None
        else Some (encode_doi doi_type (doi_url_of (strip d)))
    | None => None
    end.
Proof.
  unfold properties_of, build_properties.
  destruct (format_date_total (date it)) as [dv ->]. simpl.
  destruct (doi it) as [[|c d]|]; simpl.
  - repeat case_match; by simplify_map_eq.
  - destruct (str_empty (strip (String c d))) eqn:E; simpl;
      unfold encode_doi; repeat case_match; by simplify_map_eq.
  - repeat case_match; by simplify_map_eq.
Qed.

Lemma doi_text_encode doi_type u : doi_text (encode_doi doi_type u) = Some u.
Proof. unfold encode_doi. by case_bool_decide. Qed.

(** C5, as stated, fails: a DOI cell holding one space is a non-empty
    string, and the request carries no DOI field. *)
Lemma blank_doi_not_included : ¬ doi_included_iff_nonempty blank_doi_item.
Proof.
  intros H.
  destruct (H None _ (build_properties_returns None blank_doi_item))
    as [_ [p Hp]]; [by exists " "|].
  rewrite properties_of_doi in Hp. vm_compute in Hp. discriminate Hp.
Qed.

(** C5, amended. Every request of a run is the one built for its item
    with the effective DOI type, the schema's entry for "DOI" or rich
    text when there is none.  Its DOI field is present iff the item's
    DOI, stripped of surrounding white space, is non-empty.  The value is
    the stripped DOI when that starts with "http" and
    "https://doi.org/" followed by it otherwise; it is a URL value when
    the effective type is "url" and a text value holding it otherwise. *)
Theorem doi_field_encoding {World} (N : Notion World) fuel items token db st
    existing st1 prop_types st2 :
  get_existing_notion_titles N fuel token db st
  = Some (Returned existing, st1) →
  get_database_properties N token db st1 = (Returned prop_types, st2) →
  let doi_type := default (Some "rich_text") (prop_types !! "DOI") in
  ∃ st' evs,
    push_to_notion N fuel items token db st = Some (Returned None, st')
    ∧ trace st' = trace st2 ++ evs
    ∧ Forall2 (submits token db doi_type) evs (filter (is_new existing) items)
    ∧ (∀ it, properties (payload_of db doi_type it) !! "DOI"
             = match doi it with
               | Some d =>
                   if str_empty (strip d) then None
                   else Some (encode_doi doi_type (doi_url_of (strip d)))
               | None => None
               end)
    ∧ (∀ u, encode_doi (Some "url") u = PUrl u)
    ∧ (∀ ty u, ty ≠ Some "url" →
               encode_doi ty u = PRichText [{| text_content := Some u |}])
    ∧ doi_url_of "10.1/xyz" = "https://doi.org/10.1/xyz"
    ∧ doi_url_of "https://doi.org/10.1/xyz" = "https://doi.org/10.1/xyz".
Proof.
  intros H1 H2 doi_type.
  destruct (push_to_notion_spec N fuel items token db st existing st1
              prop_types st2 H1 H2)
    as (c & st' & evs & lines & Hrun & Ht & _ & HF & _).
  exists st', evs. split; [done|]. split; [done|]. split; [done|].
  split; [intros it; apply properties_of_doi|].
  split; [done|]. split; [|done].
  intros ty u Hty. unfold encode_doi. by rewrite bool_decide_eq_false_2.
Qed.

Lemma doi_field_encoding_witness :
  ∃ st',
    push_to_notion scripted 5 [doi_paper "Paper B" " 10.1/xyz "] "secret" "db1"
      (initial_state demo_world) = Some (Returned None, st').
Proof.
  eval_eq H1 (get_existing_notion_titles scripted 5 "secret" "db1"
                (initial_state demo_world)).
  match type of H1 with
  | _ = Some (_, ?st1) =>
      eval_eq H2 (get_database_properties scripted "secret" "db1" st1)
  end.
  destruct (doi_field_encoding scripted 5
              [doi_paper "Paper B" " 10.1/xyz "] "secret" "db1"
              (initial_state demo_world) _ _ _ _ H1 H2)
    as (st' & evs & Hrun & _).
  exists st'. exact Hrun.
Defined.

(** The request of that run: the DOI is stripped, completed and sent as
    a URL value. *)
Lemma doi_field_demo :
  properties_of (Some "url") (doi_paper "Paper B" " 10.1/xyz ") !! "DOI"
  = Some (PUrl "https://doi.org/10.1/xyz").
Proof. by rewrite properties_of_doi. Qed.

(** C9. Whether the DOI already is a URL is decided by its first four
    characters: a stripped DOI that starts with "http", even one that is
    no URL at all such as "httpfoo/10.1", is submitted as it is, and the
    prefix "https://doi.org/" is added exactly when the stripped DOI does
    not start with "http". *)
Theorem doi_prefix_check doi_type it d :
  doi it = Some d → strip d ≠ "" →
  let v := strip d in
  let sent := doi_text <$> (properties_of doi_type it !! "DOI") in
  (startswith "http" v = true ↔ ∃ rest, v = "http" +:+ rest)
  ∧ (startswith "http" v = true → sent = Some (Some v))
  ∧ (sent = Some (Some ("https://doi.org/" +:+ v))
     ↔ startswith "http" v = false)
  ∧ doi_url_of "httpfoo/10.1" = "httpfoo/10.1".
Proof.
  intros Hd Hv v sent.
  assert (Hsent : sent = Some (Some (doi_url_of v))).
  { unfold sent. rewrite properties_of_doi, Hd.
    apply str_empty_false in Hv. rewrite Hv. simpl.
    by rewrite doi_text_encode. }
  split; [apply startswith_prefix|].
  split; [intros H; rewrite Hsent; unfold doi_url_of; by rewrite H|].
  split; [|done].
  rewrite Hsent. unfold doi_url_of.
  destruct (startswith "http" v) eqn:E; [|done].
  split; [|done]. intros [= H].
  apply (f_equal String.length) in H. rewrite length_append in H.
  simpl in H. lia.
Qed.

Lemma doi_prefix_check_witness :
  doi_text <$> (properties_of (Some "url")
                  (doi_paper "Paper B" " httpfoo/10.1") !! "DOI")
  = Some (Some "httpfoo/10.1").
Proof.
  apply (doi_prefix_check (Some "url") (doi_paper "Paper B" " httpfoo/10.1")
           " httpfoo/10.1"); [reflexivity|discriminate|reflexivity].
Defined.

(** * Further properties of the date normaliser *)

Lemma pad2_month_text m : pad2 m ∈ month_texts m.
Proof. unfold month_texts. case_match; apply list_elem_of_here. Qed.

Lemma pad2_day_text d : pad2 d ∈ day_texts d.
Proof. unfold day_texts. case_match; apply list_elem_of_here. Qed.

Lemma reads_iso_text dt : valid_date dt → reads YearMonthDay (iso_text dt) dt.
Proof.
  intros Hv. split; [done|]. exists (pad2 (month dt)), (pad2 (day dt)).
  split; [apply pad2_month_text|]. split; [apply pad2_day_text|done].
Qed.

Lemma format_date_iso_text dt :
  valid_date dt →
  format_date (Some (iso_text dt)) = Returned (Some (date_text dt)).
Proof.
  intros Hv.
  pose proof (strptime_reads_2 YearMonthDay _ _ (reads_iso_text dt Hv)) as H.
  change (format_date (Some (iso_text dt)))
    with (format_date_loop (iso_text dt) date_formats).
  unfold date_formats. cbn [format_date_loop].
  change "%Y-%m-%d" with (pattern_format YearMonthDay) at 1.
  by rewrite H.
Qed.

Lemma format_date_reads s iso :
  format_date (Some s) = Returned (Some iso) →
  ∃ p dt, reads p s dt ∧ iso = date_text dt.
Proof.
  destruct s as [|c s]; [done|].
  destruct (format_date_loop_spec (String c s) patterns) as (out & Ho & Hs).
  change (format_date (Some (String c s)))
    with (format_date_loop (String c s) (pattern_format <$> patterns)).
  rewrite Ho. intros [= ->].
  destruct Hs as (pre & p & post & dt & _ & _ & Hr & ->). by exists p, dt.
Qed.

(** X1. Normalising is idempotent on the dates of four-digit years: a
    date of the form [YYYY-MM-DD] that the normaliser gives is a text it
    accepts and maps to itself. *)
Theorem format_date_idempotent s text :
  format_date (Some s) = Returned (Some text) →
  is_iso_date text = true →
  format_date (Some text) = Returned (Some text).
Proof.
  intros (p & dt & [Hv _] & ->)%format_date_reads Hiso.
  pose proof Hv as (Hy & _). apply date_text_iso_iff in Hiso; [|done].
  rewrite date_text_iso at 1 by lia. by apply format_date_iso_text.
Qed.

Lemma format_date_idempotent_witness :
  format_date (Some "2020-05-01") = Returned (Some "2020-05-01").
Proof.
  apply (format_date_idempotent "05/2020"); reflexivity.
Defined.

Lemma month_caps_length ms :
  ms ∈ month_caps → (1 ≤ String.length ms ≤ 2)%nat.
Proof.
  unfold month_caps. intros H.
  repeat (apply elem_of_cons in H as [->|H]);
    try (by apply elem_of_nil in H); simpl; lia.
Qed.

Lemma day_caps_length ds :
  ds ∈ day_caps → (1 ≤ String.length ds ≤ 2)%nat.
Proof.
  unfold day_caps. intros H.
  repeat (apply elem_of_cons in H as [->|H]);
    try (by apply elem_of_nil in H); simpl; lia.
Qed.

Lemma valid_date_day dt : valid_date dt → 1 ≤ day dt ≤ 31.
Proof.
  intros (_ & _ & Hd). split; [lia|]. etrans; [apply Hd|].
  unfold days_in_month. repeat case_match; lia.
Qed.

(** The length of a text a pattern accepts. *)
Lemma reads_length p s dt :
  reads p s dt →
  match p with
  | YearMonthDay => (8 ≤ String.length s ≤ 10)%nat
  | YearMonth | MonthYear => (6 ≤ String.length s ≤ 7)%nat
  | YearOnly => String.length s = 4%nat
  end.
Proof.
  intros [Hv Hp]. pose proof Hv as (_ & Hm & _).
  pose proof (valid_date_day _ Hv) as Hd.
  destruct p.
  - destruct Hp as (ms & ds & Hms & Hds & ->).
    destruct (month_text_cap _ _ Hm Hms) as [?%month_caps_length _].
    destruct (day_text_cap _ _ Hd Hds) as [?%day_caps_length _].
    rewrite !length_append. simpl. lia.
  - destruct Hp as (_ & ms & Hms & ->).
    destruct (month_text_cap _ _ Hm Hms) as [?%month_caps_length _].
    rewrite !length_append. simpl. lia.
  - destruct Hp as (_ & ms & Hms & ->).
    destruct (month_text_cap _ _ Hm Hms) as [?%month_caps_length _].
    rewrite !length_append. simpl. lia.
  - by destruct Hp as (_ & _ & ->).
Qed.

Lemma digit_char_is n c : digit_char n = c → is_digit c = true.
Proof. intros <-. apply digit_char_digit. Qed.

Ltac digit_clash :=
  repeat match goal with
         | H : digit_char _ = _ |- _ =>
             apply digit_char_is in H; vm_compute in H;
             try discriminate H; clear H
         end.

(** No text is both a year-month and a month/year. *)
Lemma year_month_not_month_year s dt dt' :
  reads YearMonth s dt → reads MonthYear s dt' → False.
Proof.
  intros [_ (_ & ms & _ & ->)] [Hv (_ & ms' & Hms' & H)].
  pose proof Hv as (_ & Hm & _).
  destruct (month_text_cap _ _ Hm Hms') as [Hc _]. clear -Hc H.
  unfold month_caps in Hc.
  repeat (apply elem_of_cons in Hc as [->|Hc]);
    try (by apply elem_of_nil in Hc);
    cbv [pad4 String.append] in H; simplify_eq; digit_clash.
Qed.

Lemma reads_functional p s dt dt' : reads p s dt → reads p s dt' → dt = dt'.
Proof.
  intros H1%strptime_reads_2 H2%strptime_reads_2. congruence.
Qed.

(** A text is accepted by at most one pattern, as one date. *)
Lemma reads_unique p q s dt dt' :
  reads p s dt → reads q s dt' → p = q ∧ dt = dt'.
Proof.
  intros Hp Hq.
  pose proof (reads_length _ _ _ Hp) as Lp.
  pose proof (reads_length _ _ _ Hq) as Lq.
  destruct p, q; try lia;
    try (split; [done|by eapply reads_functional]).
  - destruct (year_month_not_month_year _ _ _ Hp Hq).
  - destruct (year_month_not_month_year _ _ _ Hq Hp).
Qed.

(** X2. The order of the formats does not matter: a text (of code
    points below 256) gets a date exactly when one of the four patterns
    accepts it, and then the result is the text of the date that pattern
    reads, whichever comes first in the list: the year in decimal, the
    month and the day on two digits. *)
Theorem format_date_any_pattern s text :
  format_date (Some s) = Returned (Some text)
  ↔ ∃ p dt, reads p s dt ∧ text = date_text dt.
Proof.
  split; [apply format_date_reads|].
  intros (p & dt & Hr & ->).
  destruct s as [|c s].
  { apply reads_length in Hr. destruct p; simpl in Hr; lia. }
  destruct (format_date_loop_spec (String c s) patterns) as (out & Ho & Hs).
  change (format_date (Some (String c s)))
    with (format_date_loop (String c s) (pattern_format <$> patterns)).
  rewrite Ho. destruct out as [iso|].
  - destruct Hs as (pre & p' & post & dt' & _ & _ & Hr' & ->).
    by destruct (reads_unique _ _ _ _ _ Hr Hr') as [_ ->].
  - destruct (Hs p dt); [|done]. destruct p; in_list.
Qed.

Lemma py_int_pad2 n : 0 ≤ n ≤ 99 → py_int (pad2 n) = Returned n.
Proof.
  intros Hn. unfold pad2.
  destruct (digit_char_digit (n / 10)) as (D1 & V1 & S1).
  destruct (digit_char_digit n) as (D2 & V2 & S2).
  unfold py_int, strip. simpl. rewrite S1. simpl. rewrite S2, S1. simpl.
  rewrite D1, D2, V1, V2. f_equal. Z.div_mod_to_equations. lia.
Qed.

Lemma length_two s :
  String.length s = 2%nat → ∃ a b, s = String a (String b "").
Proof. destruct s as [|a [|b [|c s]]]; try done. by exists a, b. Qed.

(** The only reading of a text in the form [YYYY-MM-DD] is the date it
    spells. *)
Lemma reads_iso_text_inv y m d p dt' :
  0 ≤ y ≤ 9999 → 0 ≤ m ≤ 99 → 0 ≤ d ≤ 99 →
  reads p (iso_text {| year := y; month := m; day := d |}) dt' →
  dt' = {| year := y; month := m; day := d |}.
Proof.
  intros Hy Hm Hd Hr. pose proof (reads_length _ _ _ Hr) as Hl.
  assert (String.length (iso_text {| year := y; month := m; day := d |})
          = 10%nat) as Hlen by done.
  destruct p; try lia. clear Hl.
  destruct Hr as [Hv (ms & ds & Hms & Hds & H)].
  pose proof Hv as (Hy' & Hm' & _). pose proof (valid_date_day _ Hv) as Hd'.
  destruct (month_text_cap _ _ Hm' Hms) as [Lm Im].
  destruct (day_text_cap _ _ Hd' Hds) as [Ld Id].
  apply month_caps_length in Lm. apply day_caps_length in Ld.
  rewrite H, !length_append in Hlen. simpl in Hlen.
  destruct (length_two ms) as (a & b & ->); [lia|].
  destruct (length_two ds) as (a' & b' & ->); [lia|].
  cbv [iso_text pad4 pad2 String.append year month day] in H.
  destruct dt' as [y' m' d']. simpl in *.
  injection H as H1 H2 H3 H4 H5 H6 H7 H8.
  assert (Ey : pad4 y = pad4 y') by (unfold pad4; congruence).
  apply (f_equal py_int) in Ey. rewrite !py_int_pad4 in Ey by lia.
  assert (Em : pad2 m = String a (String b "")) by (unfold pad2; congruence).
  assert (Ed : pad2 d = String a' (String b' ""))
    by (unfold pad2; congruence).
  rewrite <-Em, py_int_pad2 in Im by done.
  rewrite <-Ed, py_int_pad2 in Id by done.
  congruence.
Qed.

(** X3. A text in the form [YYYY-MM-DD] gets a date exactly when it
    names a day of the calendar (year 1 to 9999, month 1 to 12, a day the
    month has in that year).  The result is then that date with its year
    in decimal: the text itself when the year is at least 1000, and a
    shorter text when it is below.  Otherwise there is no date. *)
Theorem full_date_iff_calendar_day y m d :
  0 ≤ y ≤ 9999 → 0 ≤ m ≤ 99 → 0 ≤ d ≤ 99 →
  let dt := {| year := y; month := m; day := d |} in
  (valid_date dt →
   format_date (Some (iso_text dt)) = Returned (Some (date_text dt))
   ∧ (1000 ≤ y → date_text dt = iso_text dt)
   ∧ (y < 1000 →
      (String.length (date_text dt) < String.length (iso_text dt))%nat))
  ∧ (¬ valid_date dt → format_date (Some (iso_text dt)) = Returned None).
Proof.
  intros Hy Hm Hd dt. split.
  - intros Hv. split; [by apply format_date_iso_text|]. split.
    + intros H. apply date_text_iso. simpl. lia.
    + intros H. rewrite date_text_length.
      pose proof (pretty_short y). simpl.
      change (String.length (iso_text dt)) with 10%nat. lia.
  - intros Hn. destruct (format_date_total (Some (iso_text dt))) as [out Ho].
    rewrite Ho. destruct out as [iso|]; [|done].
    apply format_date_reads in Ho as (p & dt' & Hr & _).
    pose proof (reads_iso_text_inv _ _ _ _ _ Hy Hm Hd Hr) as ->.
    by destruct Hr as [Hv _].
Qed.

Lemma full_date_iff_calendar_day_witness :
  format_date (Some "2019-02-29") = Returned None
  ∧ format_date (Some "2020-02-29") = Returned (Some "2020-02-29")
  ∧ format_date (Some "0999-03-04") = Returned (Some "999-03-04").
Proof.
  split; [|split].
  - apply (full_date_iff_calendar_day 2019 2 29); [lia..|].
    intros (_ & _ & H). vm_compute in H. destruct H as [_ H]. by apply H.
  - apply (full_date_iff_calendar_day 2020 2 29); [lia..|].
    repeat split; by vm_compute.
  - apply (full_date_iff_calendar_day 999 3 4); [lia..|].
    repeat split; by vm_compute.
Defined.

(** * Further properties of the CSV parser *)

Lemma parse_row_cases r :
  match parse_row r with
  | Returned o =>
      ¬ short_row r
      ∧ length (option_list o)
        = length (filter (λ r, truthy (row_get r "Title")) [r])
  | Raised e => short_row r ∧ ∃ msg, e = AttributeError msg
  end.
Proof.
  unfold parse_row, short_row. rewrite filter_cons, filter_nil.
  destruct (truthy (row_get r "Title")) eqn:Ht; simpl.
  - destruct (r !! "Author") as [[a|]|] eqn:Ha;
      unfold row_get_default; rewrite Ha; simpl.
    + destruct (parse_authors_loop_total (split ";" a) []) as [au ->]. simpl.
      split; [|done]. by intros [_ ?].
    + split; [done|]. by eexists.
    + split; [|done]. by intros [_ ?].
  - split; [|done]. by intros [[] _].
Qed.

Lemma parse_rows_cases rows acc :
  match parse_rows rows acc with
  | Returned items =>
      Forall (λ r, ¬ short_row r) rows
      ∧ length items
        = (length acc
           + length (filter (λ r, truthy (row_get r "Title")) rows))%nat
  | Raised e => Exists short_row rows ∧ ∃ msg, e = AttributeError msg
  end.
Proof.
  revert acc. induction rows as [|r rows IH]; intros acc.
  - simpl. split; [done|]. lia.
  - cbn [parse_rows]. pose proof (parse_row_cases r) as Hr.
    destruct (parse_row r) as [o|e]; simpl.
    + destruct Hr as [Hns Hl]. specialize (IH (acc ++ option_list o)).
      destruct (parse_rows rows (acc ++ option_list o)) as [items|e].
      * destruct IH as [HF ->]. split; [by constructor|].
        rewrite length_app, Hl, (filter_app _ [r] rows), length_app. lia.
      * destruct IH as [HE Hm]. split; [by apply Exists_cons_tl|done].
    + destruct Hr as [Hs Hm]. split; [by apply Exists_cons_hd|done].
Qed.

(** X4. The parser returns exactly when no row with a title has a
    [None] Author cell (a row shorter than the header): then it gives
    one item per row with a title and logs the count; otherwise it
    raises [AttributeError], gives no item at all and logs only the line
    that names the file. *)
Theorem parse_zotero_csv_short_row path rows :
  match parse_zotero_csv path (Returned rows) with
  | (Returned items, lg) =>
      Forall (λ r, ¬ short_row r) rows
      ∧ length items
        = length (filter (λ r, truthy (row_get r "Title")) rows)
      ∧ lg = ["Reading Zotero data from: " +:+ path;
              "Parsed " +:+ pretty (length items) +:+ " items from CSV."]
  | (Raised e, lg) =>
      Exists short_row rows
      ∧ (∃ msg, e = AttributeError msg)
      ∧ lg = ["Reading Zotero data from: " +:+ path]
  end.
Proof.
  unfold parse_zotero_csv. simpl.
  pose proof (parse_rows_cases rows []) as H.
  destruct (parse_rows rows []) as [items|e].
  - destruct H as [HF Hl]. by repeat split.
  - destruct H as [HE Hm]. by repeat split.
Qed.

Lemma entry_names_nonempty e ns : entry_names e ns → Forall (λ n, n ≠ "") ns.
Proof.
  intros [l f Hl|e' He Hne|]; constructor; try done.
  intros H. apply (f_equal String.length) in H.
  rewrite !length_append in H. simpl in H. lia.
Qed.

(** X5. No parsed author is the empty string, whatever the Author
    field holds. *)
Theorem parsed_authors_nonempty (field : string) :
  ∃ names, parse_authors (Some field) = Returned names
           ∧ Forall (λ n, n ≠ "") names.
Proof.
  destruct (parse_authors_loop_names (split ";" field) []) as (nss & H & HF).
  exists (concat nss). split; [done|].
  apply Forall_concat. clear H.
  induction HF as [|e ns es nss He _ IH]; constructor; [|done].
  by eapply entry_names_nonempty.
Qed.

Lemma contains_app c a b :
  contains c (a +:+ b) = contains c a || contains c b.
Proof.
  induction a as [|x a IH]; [done|]. rewrite append_cons. simpl.
  by rewrite IH, orb_assoc.
Qed.

Lemma split_no_sep sep s : contains sep s = false → split sep s = [s].
Proof.
  induction s as [|c s IH]; simpl; [done|].
  destruct (ascii_eqb c sep); simpl; [done|]. intros H. by rewrite (IH H).
Qed.

Lemma split_app_sep sep x rest :
  contains sep x = false →
  split sep (x +:+ String sep rest) = x :: split sep rest.
Proof.
  induction x as [|c x IH].
  - intros _. change ("" +:+ String sep rest) with (String sep rest).
    simpl. by rewrite (proj2 (ascii_eqb_true sep sep)).
  - rewrite append_cons. simpl.
    destruct (ascii_eqb c sep) eqn:E; simpl; [done|]. intros H.
    by rewrite (IH H).
Qed.

Lemma join_cons sep x y l :
  join sep (x :: y :: l) = x +:+ sep +:+ join sep (y :: l).
Proof. done. Qed.

Lemma parse_author_plain lead n :
  plain_name n → lead = "" ∨ lead = " " →
  parse_author (lead +:+ n) = Returned ([n], Verbatim).
Proof.
  intros (Hne & Hs & Hc & _) Hlead. unfold parse_author.
  assert (strip (lead +:+ n) = n) as ->.
  { destruct Hlead as [-> | ->]; [done|]. exact Hs. }
  rewrite Hc. apply str_empty_false in Hne. by rewrite Hne.
Qed.

Lemma parse_authors_loop_plain n ns lead acc :
  Forall plain_name (n :: ns) → lead = "" ∨ lead = " " →
  parse_authors_loop (split ";" (lead +:+ join "; " (n :: ns))) acc
  = Returned (acc ++ n :: ns).
Proof.
  revert n lead acc. induction ns as [|n2 ns IH]; intros n lead acc HF Hlead;
    apply Forall_cons in HF as [Hn HF].
  - assert (contains ";" (lead +:+ n) = false) as Hc.
    { rewrite contains_app. destruct Hn as (_ & _ & _ & ->).
      by destruct Hlead as [-> | ->]. }
    cbn [join]. rewrite (split_no_sep _ _ Hc). cbn [parse_authors_loop].
    by rewrite (parse_author_plain lead n Hn Hlead).
  - rewrite join_cons.
    change (lead +:+ n +:+ "; " +:+ join "; " (n2 :: ns))
      with (lead +:+ n +:+ String ";" (" " +:+ join "; " (n2 :: ns))).
    rewrite <-append_assoc, split_app_sep.
    + cbn [parse_authors_loop].
      rewrite (parse_author_plain lead n Hn Hlead).
      cbn [mbind result_bind fst].
      rewrite (IH n2 " " (acc ++ [n]) HF) by by right.
      by rewrite <-app_assoc.
    + rewrite contains_app. destruct Hn as (_ & _ & _ & ->).
      by destruct Hlead as [-> | ->].
Qed.

(** X6. Names already in display form go through unchanged: an Author
    field that joins, with "; ", names that are non-empty, stripped and
    free of commas and semicolons is parsed into exactly those names. *)
Theorem parse_authors_plain_names names :
  Forall plain_name names →
  parse_authors (Some (join "; " names)) = Returned names.
Proof.
  destruct names as [|n ns]; [done|]. intros HF.
  apply (parse_authors_loop_plain n ns "" [] HF). by left.
Qed.

Lemma parse_authors_plain_names_witness :
  parse_authors (Some "Jane Doe; Bob Smith") = Returned ["Jane Doe"; "Bob Smith"].
Proof.
  apply (parse_authors_plain_names ["Jane Doe"; "Bob Smith"]).
  repeat constructor; by vm_compute.
Defined.

Lemma length_lstrip s : (String.length (lstrip s) ≤ String.length s)%nat.
Proof.
  induction s as [|c s IH]; simpl; [done|].
  destruct (is_space c); simpl; lia.
Qed.

Lemma length_rstrip s : (String.length (rstrip s) ≤ String.length s)%nat.
Proof.
  induction s as [|c s IH]; simpl; [done|].
  destruct (is_space c && str_empty (rstrip s)); simpl; lia.
Qed.

(** A stripped text does not start with white space. *)
Lemma stripped_first c s :
  strip (String c s) = String c s → is_space c = false.
Proof.
  unfold strip. simpl. destruct (is_space c); [|done]. intros H.
  apply (f_equal String.length) in H. simpl in H.
  pose proof (length_rstrip (lstrip s)). pose proof (length_lstrip s). lia.
Qed.

Lemma stripped_lstrip s : strip s = s → lstrip s = s.
Proof.
  destruct s as [|c s]; [done|]. intros H%stripped_first. simpl.
  by rewrite H.
Qed.

Lemma stripped_rstrip s : strip s = s → rstrip s = s.
Proof.
  intros H. pose proof (stripped_lstrip s H) as Hl. unfold strip in H.
  by rewrite Hl in H.
Qed.

Lemma rstrip_app a b : rstrip b ≠ "" → rstrip (a +:+ b) = a +:+ rstrip b.
Proof.
  intros Hb. induction a as [|c a IH]; [done|].
  rewrite !append_cons. simpl. rewrite IH.
  destruct (a +:+ rstrip b) eqn:E.
  - destruct a; [by destruct Hb|]. rewrite append_cons in E. discriminate E.
  - simpl. by rewrite andb_false_r.
Qed.

Lemma split1_app_sep sep x rest :
  contains sep x = false → split1 sep (x +:+ String sep rest) = [x; rest].
Proof.
  induction x as [|c x IH].
  - intros _. change ("" +:+ String sep rest) with (String sep rest).
    simpl. by rewrite (proj2 (ascii_eqb_true sep sep)).
  - rewrite append_cons. simpl.
    destruct (ascii_eqb c sep) eqn:E; simpl; [done|]. intros H.
    by rewrite (IH H).
Qed.

Lemma strip_zotero_author p : zotero_name_ok p → strip (zotero_author p) = zotero_author p.
Proof.
  destruct p as [l f]. intros (Hl & Sl & _ & _ & Hf & Sf & _). simpl in *.
  unfold zotero_author. simpl. unfold strip.
  assert (lstrip (l +:+ ", " +:+ f) = l +:+ ", " +:+ f) as ->.
  { destruct l as [|c l]; [done|]. rewrite append_cons. simpl.
    by rewrite (stripped_first _ _ Sl). }
  rewrite <-append_assoc, rstrip_app; rewrite (stripped_rstrip _ Sf); done.
Qed.

Lemma parse_author_zotero lead p :
  zotero_name_ok p → lead = "" ∨ lead = " " →
  parse_author (lead +:+ zotero_author p)
  = Returned ([display_author p], Reordered).
Proof.
  intros Hp Hlead. pose proof (strip_zotero_author p Hp) as Hs.
  destruct p as [l f]. destruct Hp as (Hl & Sl & Cl & _ & Hf & Sf & _).
  simpl in *. unfold parse_author.
  assert (strip (lead +:+ zotero_author (l, f)) = zotero_author (l, f)) as ->.
  { destruct Hlead as [-> | ->]; [done|]. exact Hs. }
  unfold zotero_author, display_author. simpl.
  change (l +:+ ", " +:+ f) with (l +:+ String "," (" " +:+ f)).
  rewrite contains_app. simpl. rewrite orb_true_r.
  rewrite split1_app_sep by done. simpl.
  rewrite Sl. by change (strip (" " +:+ f)) with (strip f); rewrite Sf.
Qed.

Lemma zotero_author_no_semicolon lead p :
  zotero_name_ok p → lead = "" ∨ lead = " " →
  contains ";" (lead +:+ zotero_author p) = false.
Proof.
  destruct p as [l f]. intros (_ & _ & _ & Cl & _ & _ & Cf) Hlead.
  simpl in *. unfold zotero_author. simpl.
  change (l +:+ ", " +:+ f) with (l +:+ String "," (String " " f)).
  rewrite !contains_app, Cl. simpl. rewrite Cf.
  by destruct Hlead as [-> | ->].
Qed.

Lemma parse_authors_loop_zotero p ps lead acc :
  Forall zotero_name_ok (p :: ps) → lead = "" ∨ lead = " " →
  parse_authors_loop
    (split ";" (lead +:+ join "; " (zotero_author <$> p :: ps))) acc
  = Returned (acc ++ (display_author <$> p :: ps)).
Proof.
  revert p lead acc. induction ps as [|p2 ps IH]; intros p lead acc HF Hlead;
    apply Forall_cons in HF as [Hp HF].
  - cbn [fmap list_fmap join].
    rewrite (split_no_sep _ _ (zotero_author_no_semicolon lead p Hp Hlead)).
    cbn [parse_authors_loop].
    by rewrite (parse_author_zotero lead p Hp Hlead).
  - rewrite !fmap_cons, join_cons.
    change (lead +:+ zotero_author p +:+ "; "
            +:+ join "; " (zotero_author p2 :: (zotero_author <$> ps)))
      with (lead +:+ zotero_author p
            +:+ String ";" (" " +:+ join "; " (zotero_author <$> p2 :: ps))).
    rewrite <-append_assoc, split_app_sep
      by by apply zotero_author_no_semicolon.
    cbn [parse_authors_loop].
    rewrite (parse_author_zotero lead p Hp Hlead).
    cbn [mbind result_bind fst].
    rewrite (IH p2 " " (acc ++ [display_author p]) HF) by by right.
    by rewrite <-app_assoc.
Qed.

(** X7. An Author field in Zotero's form, "Last, First" entries joined
    with "; ", is parsed into "First Last" for each entry, in order
    (both parts non-empty, stripped and free of semicolons, the last
    name free of commas). *)
Theorem parse_authors_zotero_names ps :
  Forall zotero_name_ok ps →
  parse_authors (Some (join "; " (zotero_author <$> ps)))
  = Returned (display_author <$> ps).
Proof.
  destruct ps as [|p ps]; [done|]. intros HF.
  apply (parse_authors_loop_zotero p ps "" [] HF). by left.
Qed.

Lemma parse_authors_zotero_names_witness :
  parse_authors (Some "Doe, Jane; van Dyke, Mary Ann")
  = Returned ["Jane Doe"; "Mary Ann van Dyke"].
Proof.
  apply (parse_authors_zotero_names
           [("Doe", "Jane"); ("van Dyke", "Mary Ann")]).
  repeat constructor; by vm_compute.
Defined.

(** * Further properties of the title index *)

Lemma foldl_add_page t existing pages :
  t ∈ foldl add_page existing pages
  ↔ t ∈ existing ∨ ∃ p, p ∈ pages ∧ page_title p = Some t.
Proof.
  revert existing. induction pages as [|p pages IH]; intros existing; simpl.
  - split; [by left|]. intros [?|(p & ?%elem_of_nil & _)]; done.
  - rewrite IH. unfold add_page, page_title.
    destruct (first_title title_keys (page_properties p)) as [t'|] eqn:E.
    + rewrite elem_of_union, elem_of_singleton. split.
      * intros [[->|?]|(q & Hq & Ht)]; [right|by left|right].
        -- exists p. split; [apply list_elem_of_here|done].
        -- exists q. split; [by apply list_elem_of_further|done].
      * intros [?|(q & [->|Hq]%elem_of_cons & Ht)]; [by left; right|..].
        -- left; left. congruence.
        -- right. by exists q.
    + split.
      * intros [?|(q & Hq & Ht)]; [by left|right].
        exists q. split; [by apply list_elem_of_further|done].
      * intros [?|(q & [->|Hq]%elem_of_cons & Ht)]; [by left|congruence|].
        right. by exists q.
Qed.

Lemma foldl_add_page_app existing ps1 ps2 :
  foldl add_page existing (ps1 ++ ps2)
  = foldl add_page (foldl add_page existing ps1) ps2.
Proof. apply foldl_app. Qed.

Section IndexProperties.
Context {World : Type} (N : Notion World).

(** What the page loop did when it returns an index. *)
Lemma fetch_pages_returned fuel token db cursor existing st existing' st' :
  fetch_pages N fuel token db cursor existing st
  = Some (Returned existing', st') →
  ∃ evs, trace st' = trace st ++ evs
         ∧ log st' = log st
         ∧ paged (query_url db) (json_headers token) cursor evs
         ∧ existing' = foldl add_page existing (fetched_pages evs).
Proof.
  revert cursor existing st.
  induction fuel as [|fuel IH]; intros cursor existing st; [done|].
  cbn [fetch_pages].
  destruct (post_query N _ _ _ (world st)) as [q w] eqn:Eq.
  destruct (raise_for_status (query_url db) q) as [data|e] eqn:Er.
  - destruct (has_more data) eqn:Hm.
    + intros H. apply IH in H as (evs & Ht & Hl & Hp & ->).
      exists (Queried (query_url db) (json_headers token) (query_for cursor) q
              :: evs).
      split; [rewrite Ht; simpl; by rewrite <-app_assoc|].
      split; [done|]. split; [by eapply paged_more|].
      unfold fetched_pages. simpl. rewrite Er. by rewrite foldl_add_page_app.
    + intros [= <- <-]. eexists [_]. split; [done|]. split; [done|].
      split; [by eapply paged_last|].
      unfold fetched_pages. simpl. rewrite Er. by rewrite app_nil_r.
  - by destruct e.
Qed.

(** X8. The index the lookup returns holds exactly the titles of the
    records of the pages it fetched: a title is in it iff some fetched
    record contributes it.  Equal titles, on one page or on several,
    are one element. *)
Theorem index_holds_fetched_titles fuel token db st existing st' :
  get_existing_notion_titles N fuel token db st
  = Some (Returned existing, st') →
  ∃ evs, trace st' = trace st ++ evs
         ∧ ∀ t, t ∈ existing
                ↔ ∃ p, p ∈ fetched_pages evs ∧ page_title p = Some t.
Proof.
  unfold get_existing_notion_titles.
  destruct (fetch_pages N fuel token db None ∅ st) as [[[ex|e] st0]|] eqn:E;
    [|done..].
  intros [= <- <-]. apply fetch_pages_returned in E as (evs & Ht & _ & _ & ->).
  exists evs. split; [done|]. intros t. rewrite foldl_add_page.
  split; [intros [?%not_elem_of_empty|?]; done|by right].
Qed.

(** X9. The pagination of a lookup that returns: the first query carries
    no cursor, every later one the cursor of the reply before it (none
    when that cursor is absent or empty), every query asks for 100
    records at the query address with the JSON headers, no reply but
    the last says there is more, and nothing else is sent. *)
Theorem index_queries_follow_cursor fuel token db st existing st' :
  get_existing_notion_titles N fuel token db st
  = Some (Returned existing, st') →
  ∃ evs, trace st' = trace st ++ evs
         ∧ paged (query_url db) (json_headers token) None evs
         ∧ log st'
           = log st ++ ["Found " +:+ pretty (size existing)
                        +:+ " existing titles in Notion."].
Proof.
  unfold get_existing_notion_titles.
  destruct (fetch_pages N fuel token db None ∅ st) as [[[ex|e] st0]|] eqn:E;
    [|done..].
  intros [= <- <-]. apply fetch_pages_returned in E as (evs & Ht & Hl & Hp & _).
  exists evs. split; [done|]. split; [done|]. simpl. by rewrite Hl.
Qed.

Lemma fetch_pages_stalled token db w q data fuel cursor existing lg tr :
  post_query N (query_url db) (json_headers token) (query_for None) w
  = (q, w) →
  raise_for_status (query_url db) q = Returned data →
  has_more data = true → truthy (next_cursor data) = false →
  truthy cursor = false →
  fetch_pages N fuel token db cursor existing
    {| world := w; log := lg; trace := tr |} = None.
Proof.
  intros Hq Hr Hm Hn. revert cursor existing tr.
  induction fuel as [|fuel IH]; intros cursor existing tr Hc; [done|].
  cbn [fetch_pages world]. rewrite Hc.
  change {| page_size := 100; start_cursor := None |} with (query_for None).
  rewrite Hq, Hr, Hm. by apply IH.
Qed.

(** X10. When the service says there is more but gives no cursor (or
    an empty one) and answers the query without a cursor the same way
    again, the lookup asks for the first page over and over: it never
    returns, whatever the number of turns. *)
Theorem stalled_pagination_never_returns token db w q data :
  post_query N (query_url db) (json_headers token) (query_for None) w
  = (q, w) →
  raise_for_status (query_url db) q = Returned data →
  has_more data = true → truthy (next_cursor data) = false →
  ∀ fuel lg tr,
    get_existing_notion_titles N fuel token db
      {| world := w; log := lg; trace := tr |} = None.
Proof.
  intros Hq Hr Hm Hn fuel lg tr. unfold get_existing_notion_titles.
  by rewrite (fetch_pages_stalled token db w q data fuel None ∅ lg tr).
Qed.
End IndexProperties.

Lemma index_holds_fetched_titles_witness :
  ∃ evs, evs ≠ []
         ∧ ∀ t, t ∈ ({[ Some "Paper A" ]} : gset (option string))
                ↔ ∃ p, p ∈ fetched_pages evs ∧ page_title p = Some t.
Proof.
  eval_eq H (get_existing_notion_titles scripted 5 "secret" "db1"
               (initial_state demo_world)).
  destruct (index_holds_fetched_titles scripted 5 "secret" "db1" _ _ _ H)
    as (evs & Ht & Hex).
  exists evs. split; [|exact Hex].
  intros ->. vm_compute in Ht. discriminate Ht.
Defined.

Lemma index_queries_follow_cursor_witness :
  ∃ evs, paged (query_url "db1") (json_headers "secret") None evs.
Proof.
  eval_eq H (get_existing_notion_titles scripted 5 "secret" "db1"
               (initial_state demo_world)).
  destruct (index_queries_follow_cursor scripted 5 "secret" "db1" _ _ _ H)
    as (evs & _ & Hp & _).
  by exists evs.
Defined.

Lemma stalled_pagination_never_returns_witness :
  get_existing_notion_titles stalled 1000 "secret" "db1" (initial_state ())
  = None.
Proof.
  by eapply (stalled_pagination_never_returns stalled "secret" "db1" ()).
Defined.

(** * Further properties of a run *)

Lemma paged_addressed token db cursor evs :
  paged (query_url db) (json_headers token) cursor evs →
  Forall (well_addressed token db) evs ∧ submissions evs = [].
Proof.
  induction 1 as [cursor r data Hr Hm|cursor r data evs Hr Hm _ [IH1 IH2]].
  - split; [|done]. by repeat constructor.
  - split; [|done]. constructor; [|done]. by repeat constructor.
Qed.

Lemma submits_addressed token db ty evs its :
  Forall2 (submits token db ty) evs its → Forall (well_addressed token db) evs.
Proof.
  induction 1 as [|ev it evs its [r ->] _ IH]; constructor; [|done].
  by repeat constructor.
Qed.

Section RunProperties.
Context {World : Type} (N : Notion World).

(** Whatever the page loop gives, it only sent queries. *)
Lemma fetch_pages_addressed fuel token db cursor existing st r st' :
  fetch_pages N fuel token db cursor existing st = Some (r, st') →
  ∃ evs, trace st' = trace st ++ evs ∧ Forall (well_addressed token db) evs.
Proof.
  revert cursor existing st.
  induction fuel as [|fuel IH]; intros cursor existing st; [done|].
  cbn [fetch_pages].
  destruct (post_query N _ _ _ (world st)) as [q w] eqn:Eq.
  destruct (raise_for_status (query_url db) q) as [data|e] eqn:Er.
  - destruct (has_more data).
    + intros H. apply IH in H as (evs & Ht & HF).
      eexists (_ :: evs). split; [rewrite Ht; simpl; by rewrite <-app_assoc|].
      constructor; [by repeat constructor|done].
    + intros [= <- <-]. eexists [_]. split; [done|].
      constructor; [by repeat constructor|done].
  - destruct e; intros [= <- <-]; eexists [_]; (split; [done|]);
      (constructor; [by repeat constructor|done]).
Qed.

Lemma get_database_properties_event token db st r st' :
  get_database_properties N token db st = (r, st') →
  ∃ q, trace st'
       = trace st ++ [Inspected (database_url db) (plain_headers token) q].
Proof.
  unfold get_database_properties.
  destruct (get_database N _ _ (world st)) as [q w] eqn:Eq.
  destruct (raise_for_status (database_url db) q) as [data|[]];
    intros [= <- <-]; by exists q.
Qed.

(** X11. The order of the requests of a run that gets through: first
    the queries that walk the pages of the index, then the one schema
    request, then one creation request for each item whose title is not
    in the index, in the order of the items; nothing else is sent. *)
Theorem requests_in_order fuel items token db st existing st1 prop_types st2 :
  get_existing_notion_titles N fuel token db st
  = Some (Returned existing, st1) →
  get_database_properties N token db st1 = (Returned prop_types, st2) →
  ∃ st' queries q creations,
    push_to_notion N fuel items token db st = Some (Returned None, st')
    ∧ trace st'
      = trace st ++ queries
        ++ [Inspected (database_url db) (plain_headers token) q] ++ creations
    ∧ paged (query_url db) (json_headers token) None queries
    ∧ Forall2 (submits token db (default (Some "rich_text")
                                   (prop_types !! "DOI")))
        creations (filter (is_new existing) items).
Proof.
  intros H1 H2.
  destruct (push_to_notion_spec N fuel items token db st existing st1
              prop_types st2 H1 H2)
    as (c & st' & evs & lines & Hrun & Ht & _ & HF & _).
  destruct (index_queries_follow_cursor N fuel token db st existing st1 H1)
    as (qs & Ht1 & Hp & _).
  destruct (get_database_properties_event token db st1 _ _ H2) as (q & Ht2).
  exists st', qs, q, evs. split; [done|].
  split; [by rewrite Ht, Ht2, Ht1, <-!app_assoc|]. done.
Qed.

(** X12. Every request of a run, whether the run gets through or stops
    on an error, goes to one of three addresses of the same database
    (the query, the schema, the creation of a record in it), asks for
    pages of 100 records when it is a query, and carries the bearer token
    and the protocol version in its headers. *)
Theorem requests_well_addressed fuel items token db st r st' :
  push_to_notion N fuel items token db st = Some (r, st') →
  ∃ evs, trace st' = trace st ++ evs
         ∧ Forall (well_addressed token db) evs
         ∧ Forall (λ ev, ("Authorization", "Bearer " +:+ token)
                         ∈ event_headers ev
                         ∧ ("Notion-Version", NOTION_VERSION)
                           ∈ event_headers ev) evs.
Proof.
  intros Hrun.
  cut (∃ evs, trace st' = trace st ++ evs
              ∧ Forall (well_addressed token db) evs).
  { intros (evs & Ht & HF). exists evs. split; [done|]. split; [done|].
    eapply Forall_impl; [exact HF|].
    intros [url h p q|url h q|url h p q]; simpl.
    - intros (_ & -> & _). split; in_list.
    - intros (_ & ->). split; in_list.
    - intros (_ & -> & _). split; in_list. }
  unfold push_to_notion, get_existing_notion_titles in Hrun.
  destruct (fetch_pages N fuel token db None ∅ st) as [[r0 st0]|] eqn:E0;
    [|done].
  apply fetch_pages_addressed in E0 as (evs0 & Ht0 & HF0).
  destruct r0 as [ex|e]; [|injection Hrun as <- <-; by exists evs0].
  destruct (get_database_properties N token db _) as [r1 st1] eqn:E1.
  apply get_database_properties_event in E1 as (q & Ht1). simpl in Ht1.
  destruct r1 as [pt|e].
  - edestruct (push_items_spec N token db ex
                 (default (Some "rich_text") (pt !! "DOI")) items)
      as (c' & st3 & evs3 & lines & Hrun3 & Ht3 & _ & HF3 & _).
    rewrite Hrun3 in Hrun. injection Hrun as <- <-.
    eexists (evs0 ++ [_] ++ evs3).
    split; [simpl; rewrite Ht3; simpl; by rewrite Ht1, Ht0, <-!app_assoc|].
    apply Forall_app. split; [done|]. apply Forall_app.
    split; [by repeat constructor|by eapply submits_addressed].
  - injection Hrun as <- <-. eexists (evs0 ++ [_]).
    split; [by rewrite Ht1, Ht0, <-!app_assoc|].
    apply Forall_app. split; [done|]. by repeat constructor.
Qed.
End RunProperties.

Lemma requests_in_order_witness :
  ∃ st', push_to_notion scripted 5 [paper "Paper A"; paper "Paper B"]
           "secret" "db1" (initial_state demo_world)
         = Some (Returned None, st').
Proof.
  eval_eq H1 (get_existing_notion_titles scripted 5 "secret" "db1"
                (initial_state demo_world)).
  match type of H1 with
  | _ = Some (_, ?st1) =>
      eval_eq H2 (get_database_properties scripted "secret" "db1" st1)
  end.
  destruct (requests_in_order scripted 5 [paper "Paper A"; paper "Paper B"]
              "secret" "db1" (initial_state demo_world) _ _ _ _ H1 H2)
    as (st' & qs & q & cs & Hrun & _).
  exists st'. exact Hrun.
Defined.

Lemma requests_well_addressed_witness :
  ∃ evs : list event, Forall (well_addressed "secret" "db1") evs.
Proof.
  eval_eq H (push_to_notion scripted 5 [paper "Paper B"] "secret" "db1"
               (initial_state broken_index_world)).
  destruct (requests_well_addressed scripted 5 [paper "Paper B"] "secret"
              "db1" (initial_state broken_index_world) _ _ H)
    as (evs & _ & HF & _).
  by exists evs.
Defined.

Lemma date_text_nonempty dt : str_empty (date_text dt) = false.
Proof.
  unfold date_text. destruct (pretty (year dt)); [done|].
  by rewrite append_cons.
Qed.

Lemma format_date_date_text date_str text :
  format_date date_str = Returned (Some text) →
  ∃ dt, valid_date dt ∧ text = date_text dt.
Proof.
  destruct date_str as [s|]; [|done].
  intros (p & dt & [Hv _] & ->)%format_date_reads. by exists dt.
Qed.

(** X13. What a creation request carries: Title is the item's title;
    Authors is the authors joined with a comma and a space, or "Unknown"
    when there is none; Date is set exactly when the normaliser gives a
    date, and then holds the text of a day of the calendar, the year in
    decimal and month and day on two digits, which has the form
    [YYYY-MM-DD] exactly when the year is at least 1000; and no key other
    than Title, Authors, Date and DOI is ever set. *)
Theorem request_properties doi_type it :
  properties_of doi_type it !! "Title"
  = Some (PTitle [{| text_content := title it |}])
  ∧ properties_of doi_type it !! "Authors"
    = Some (PRichText [{| text_content := Some (authors_text_of it) |}])
  ∧ (∃ d, format_date (date it) = Returned d
          ∧ properties_of doi_type it !! "Date" = PDate <$> d
          ∧ ∀ text, d = Some text →
              ∃ dt, valid_date dt ∧ text = date_text dt
                    ∧ (is_iso_date text = true ↔ 1000 ≤ year dt))
  ∧ (∀ k, is_Some (properties_of doi_type it !! k) → k ∈ property_keys)
  ∧ properties_of None
      {| title := Some "T"; authors := []; date := Some "0999-03-04";
         doi := None |} !! "Date" = Some (PDate "999-03-04").
Proof.
  unfold properties_of at 1 2 3 4. unfold build_properties.
  destruct (format_date_total (date it)) as [d Hd]. rewrite Hd. simpl.
  assert (Hiso : ∀ text, d = Some text →
                         ∃ dt, valid_date dt ∧ text = date_text dt).
  { intros text ->. by apply (format_date_date_text (date it)). }
  split; [repeat case_match; by simplify_map_eq|].
  split; [unfold authors_text_of; repeat case_match; by simplify_map_eq|].
  split; [|split].
  - exists d. split; [done|]. split.
    + destruct d as [text|]; simpl.
      * destruct (Hiso text eq_refl) as (dt & _ & ->).
        rewrite date_text_nonempty. simpl.
        repeat case_match; by simplify_map_eq.
      * repeat case_match; by simplify_map_eq.
    + intros text (dt & Hv & ->)%Hiso. exists dt. split; [done|].
      split; [done|]. by apply date_text_iso_iff.
  - intros k [v Hk]. unfold property_keys.
    destruct (decide (k = "Title")) as [->|?]; [in_list|].
    destruct (decide (k = "Authors")) as [->|?]; [in_list|].
    destruct (decide (k = "Date")) as [->|?]; [in_list|].
    destruct (decide (k = "DOI")) as [->|?]; [in_list|].
    repeat case_match; by simplify_map_eq.
  - by vm_compute.
Qed.

(** X14. A row that has a title but no Author, Date and DOI column is
    kept by the parser and pushed with its title, Authors "Unknown", and
    neither a Date nor a DOI. *)
Theorem title_only_row_request doi_type (r : row) t :
  r !! "Title" = Some (Some t) → t ≠ "" →
  r !! "Author" = None → r !! "Date" = None → r !! "DOI" = None →
  ∃ it, parse_row r = Returned (Some it)
        ∧ properties_of doi_type it
          = <[ "Authors" := PRichText [{| text_content := Some "Unknown" |}] ]>
              {[ "Title" := PTitle [{| text_content := Some t |}] ]}.
Proof.
  intros Ht Hne Ha Hd Hdoi. unfold parse_row, row_get, row_get_default.
  rewrite Ht, Ha, Hd, Hdoi. simpl.
  apply str_empty_false in Hne. rewrite Hne. simpl.
  eexists. split; [done|]. unfold properties_of. by vm_compute.
Qed.

Lemma title_only_row_request_witness :
  ∃ it, parse_row {[ "Title" := Some "Paper A" ]} = Returned (Some it)
        ∧ properties_of (Some "url") it
          = <[ "Authors" := PRichText [{| text_content := Some "Unknown" |}] ]>
              {[ "Title" := PTitle [{| text_content := Some "Paper A" |}] ]}.
Proof.
  apply (title_only_row_request (Some "url") {[ "Title" := Some "Paper A" ]}
           "Paper A"); by vm_compute.
Defined.

(** ** Running the sync twice *)

Lemma stored_page_title t : page_title (stored_page t) = Some t.
Proof. unfold page_title, stored_page. simpl. by simplify_map_eq. Qed.

Lemma recording_index fuel token db st :
  ∃ existing st',
    get_existing_notion_titles recording (S fuel) token db st
    = Some (Returned existing, st')
    ∧ world st' = world st
    ∧ ∀ t, t ∈ existing ↔ t ∈ world st.
Proof.
  unfold get_existing_notion_titles. cbn [fetch_pages]. simpl.
  eexists _, _. split; [done|]. split; [done|].
  intros t. rewrite foldl_add_page. split.
  - intros [?%not_elem_of_empty|(p & Hp & Ht)]; [done|].
    apply list_elem_of_fmap in Hp as (t' & -> & Hin).
    rewrite stored_page_title in Ht. congruence.
  - intros Hin. right. exists (stored_page t).
    split; [by apply list_elem_of_fmap_2|apply stored_page_title].
Qed.

Lemma recording_push token db existing ty items counts st :
  ∃ counts' st',
    push_items recording token db existing ty items counts st
    = (Returned counts', st')
    ∧ world st' = world st ++ (title <$> filter (is_new existing) items).
Proof.
  revert counts st. induction items as [|it items IH]; intros counts st.
  - eexists _, _. split; [done|]. simpl. by rewrite app_nil_r.
  - cbn [push_items]. rewrite filter_cons.
    destruct (decide (title it ∈ existing)) as [Hin|Hin].
    + rewrite bool_decide_eq_true_2 by done.
      rewrite (decide_False (P := is_new existing it)) by (by intros []).
      edestruct IH as (c' & st' & -> & Hw). by eexists _, _.
    + rewrite bool_decide_eq_false_2 by done.
      rewrite (decide_True (P := is_new existing it)) by done.
      rewrite build_properties_returns. simpl.
      edestruct IH as (c' & st' & -> & Hw). eexists _, _. split; [done|].
      rewrite Hw. simpl.
      change (payload_title _) with (payload_title (payload_of db ty it)).
      by rewrite payload_of_title, <-app_assoc.
Qed.

Lemma submits_titles token db ty evs its :
  Forall2 (submits token db ty) evs its →
  (payload_title ∘ fst) <$> submissions evs = title <$> its.
Proof.
  induction 1 as [|ev it evs its [r ->] _ IH]; [done|].
  rewrite submissions_cons, !fmap_cons, IH. simpl.
  by rewrite payload_of_title.
Qed.

Lemma recording_run fuel items token db w :
  ∃ st' existing,
    push_to_notion recording (S fuel) items token db (initial_state w)
    = Some (Returned None, st')
    ∧ (∀ t, t ∈ existing ↔ t ∈ w)
    ∧ world st' = w ++ (title <$> filter (is_new existing) items)
    ∧ (payload_title ∘ fst) <$> submissions (trace st')
      = title <$> filter (is_new existing) items.
Proof.
  destruct (recording_index fuel token db (initial_state w))
    as (ex & st1 & H1 & Hw1 & Hex).
  destruct (get_database_properties recording token db st1)
    as [r2 st2] eqn:H2.
  assert (∃ pt, r2 = Returned pt ∧ world st2 = world st1) as (pt & -> & Hw2).
  { unfold get_database_properties in H2. simpl in H2.
    injection H2 as <- <-. by eexists. }
  destruct (push_to_notion_spec recording (S fuel) items token db _ ex st1 pt
              st2 H1 H2)
    as (c & st' & evs & lines & Hrun & Ht & _ & HF & _).
  exists st', ex. split; [done|]. split; [done|].
  pose proof Hrun as Hrun'. unfold push_to_notion in Hrun'.
  rewrite H1, H2 in Hrun'.
  edestruct (recording_push token db ex
               (default (Some "rich_text") (pt !! "DOI")) items)
    as (c' & st3 & Hp & Hw3).
  rewrite Hp in Hrun'. injection Hrun' as <-. simpl.
  split; [rewrite Hw3; simpl; by rewrite Hw2, Hw1|].
  destruct (get_existing_notion_titles_spec recording _ _ _ _ _ _ H1)
    as (evs1 & Ht1 & Hs1 & _).
  destruct (get_database_properties_spec recording _ _ _ _ _ H2)
    as (ev2 & Ht2 & Hs2 & _).
  simpl in Ht. rewrite Ht, Ht2, Ht1. simpl.
  rewrite !submissions_app, Hs1.
  assert (submissions [ev2] = []) as -> by (unfold submissions; simpl;
                                            by rewrite Hs2).
  simpl. by eapply submits_titles.
Qed.

(** X15. Running the sync a second time creates nothing: against a
    service that keeps what it accepted and lists it in its index, a
    first run over any items followed by a second run over the same
    items sends no creation request in the second run and leaves the
    records as they were. *)
Theorem second_run_creates_nothing fuel items token db w :
  ∃ st1 st2,
    push_to_notion recording (S fuel) items token db (initial_state w)
    = Some (Returned None, st1)
    ∧ push_to_notion recording (S fuel) items token db
        (initial_state (world st1))
      = Some (Returned None, st2)
    ∧ submissions (trace st2) = []
    ∧ world st2 = world st1.
Proof.
  destruct (recording_run fuel items token db w)
    as (st1 & ex1 & Hrun1 & Hex1 & Hw1 & _).
  destruct (recording_run fuel items token db (world st1))
    as (st2 & ex2 & Hrun2 & Hex2 & Hw2 & Hs2).
  exists st1, st2. split; [done|]. split; [done|].
  assert (filter (is_new ex2) items = []) as Hnone.
  { destruct (filter (is_new ex2) items) as [|it l] eqn:E; [done|].
    assert (it ∈ filter (is_new ex2) items) as [Hnew Hin]%list_elem_of_filter
      by (rewrite E; apply list_elem_of_here).
    destruct Hnew. apply Hex2. rewrite Hw1, elem_of_app.
    destruct (decide (title it ∈ ex1)) as [Hk|Hk]; [left; by apply Hex1|].
    right. apply list_elem_of_fmap_2. by apply list_elem_of_filter. }
  rewrite Hnone in Hw2, Hs2. simpl in *.
  split; [|by rewrite Hw2, app_nil_r].
  by apply fmap_nil_inv in Hs2.
Qed.

(** * The configuration file *)

Lemma file_lines_line x rest :
  one_line x →
  file_lines (x +:+ String newline rest)
  = (x +:+ String newline "") :: file_lines rest.
Proof.
  intros [Hn Hr]. induction x as [|c x IH].
  - done.
  - rewrite !append_cons. simpl in Hn, Hr.
    apply orb_false_iff in Hn as [Hn1 Hn2].
    apply orb_false_iff in Hr as [Hr1 Hr2].
    cbn [file_lines]. rewrite Hn1, Hr1, (IH Hn2 Hr2). done.
Qed.

Lemma rstrip_app_space a b : rstrip b = "" → rstrip (a +:+ b) = rstrip a.
Proof.
  intros Hb. induction a as [|c a IH]; [done|].
  rewrite append_cons. simpl. by rewrite IH.
Qed.

(** A line of the saved file, stripped, is the key, "=" and the value. *)
Lemma strip_env_line c k v :
  is_space c = false → rstrip (String c k) = String c k → strip v = v →
  strip (String c k +:+ v +:+ String newline "") = String c k +:+ v.
Proof.
  intros Hc Hk Hv. unfold strip. rewrite append_cons. simpl. rewrite Hc.
  rewrite <-append_cons.
  destruct v as [|a v].
  - change ("" +:+ String newline "") with (String newline "").
    rewrite rstrip_app_space by done. by rewrite Hk, append_nil_r.
  - rewrite rstrip_app.
    + by rewrite rstrip_app_space, (stripped_rstrip _ Hv) by done.
    + rewrite rstrip_app_space, (stripped_rstrip _ Hv) by done. done.
Qed.

Lemma strip_idemp s : strip (strip s) = strip s.
Proof.
  assert (Hl : ∀ s, lstrip (lstrip s) = lstrip s).
  { clear s. induction s as [|c s IH]; [done|]. simpl.
    destruct (is_space c) eqn:E; [done|]. simpl. by rewrite E. }
  assert (Hr : ∀ s, rstrip (rstrip s) = rstrip s).
  { clear s. induction s as [|c s IH]; [done|]. simpl.
    destruct (is_space c && str_empty (rstrip s)) eqn:E; [done|].
    simpl. by rewrite IH, E. }
  assert (Hlr : ∀ s, lstrip s = s → lstrip (rstrip s) = rstrip s).
  { clear s. intros [|c s]; [done|]. simpl.
    destruct (is_space c) eqn:E.
    - intros H. apply (f_equal String.length) in H. simpl in H.
      pose proof (length_lstrip s). lia.
    - intros _. simpl. by rewrite E. }
  unfold strip. rewrite (Hlr _ (Hl s)). apply Hr.
Qed.

Lemma contains_lstrip c s : contains c s = false → contains c (lstrip s) = false.
Proof.
  induction s as [|a s IH]; [done|]. simpl.
  intros [H1 H2]%orb_false_iff. destruct (is_space a); [by apply IH|].
  simpl. by rewrite H1, H2.
Qed.

Lemma contains_rstrip c s : contains c s = false → contains c (rstrip s) = false.
Proof.
  induction s as [|a s IH]; [done|]. simpl.
  intros [H1 H2]%orb_false_iff.
  destruct (is_space a && str_empty (rstrip s)); [done|].
  simpl. by rewrite H1, (IH H2).
Qed.

Lemma one_line_strip v : one_line v → one_line (strip v).
Proof.
  intros [H1 H2]. split; by apply contains_rstrip, contains_lstrip.
Qed.

(** A line "key=value" with its line end sets the key to the value. *)
Lemma env_line_assign c k v vals :
  is_space c = false → ascii_eqb "#" c = false →
  contains "=" (String c k) = false → strip v = v →
  env_line vals ((String c k +:+ String "=" v) +:+ String newline "")
  = Returned (<[ String c k := v ]> vals).
Proof.
  intros Hc Hh Hk Hv. unfold env_line.
  assert (strip ((String c k +:+ String "=" v) +:+ String newline "")
          = String c k +:+ String "=" v) as ->.
  { replace (String c k +:+ String "=" v) with ((String c k +:+ "=") +:+ v)
      by (by rewrite append_assoc).
    rewrite append_assoc.
    apply (strip_env_line c (k +:+ "=") v); [done| |done].
    change (String c (k +:+ "=")) with (String c k +:+ "=").
    by rewrite rstrip_app. }
  assert (contains "=" ((String c k +:+ String "=" v) +:+ String newline "")
          = true) as ->.
  { rewrite !contains_app. cbn [contains].
    rewrite (proj2 (ascii_eqb_true "=" "=") eq_refl). cbn [orb].
    by rewrite orb_true_r. }
  assert (startswith "#"
            ((String c k +:+ String "=" v) +:+ String newline "") = false)
    as ->.
  { rewrite !append_cons. cbn [startswith]. by rewrite Hh. }
  rewrite append_cons at 1. cbn [str_empty negb andb].
  by rewrite split1_app_sep.
Qed.

Lemma file_lines_env_text t d c :
  one_line t → one_line d → one_line c →
  file_lines (env_text t d c)
  = [("NOTION_TOKEN" +:+ String "=" t) +:+ String newline "";
     ("NOTION_DB_ID" +:+ String "=" d) +:+ String newline "";
     ("ZOTERO_CSV_PATH" +:+ String "=" c) +:+ String newline ""].
Proof.
  intros [Ht1 Ht2] [Hd1 Hd2] [Hc1 Hc2].
  change (env_text t d c)
    with (("NOTION_TOKEN" +:+ String "=" t) +:+ String newline
            (("NOTION_DB_ID" +:+ String "=" d) +:+ String newline
               (("ZOTERO_CSV_PATH" +:+ String "=" c) +:+ String newline ""))).
  rewrite !file_lines_line; [done|..];
    (split; rewrite contains_app; cbn [contains];
     rewrite ?Ht1, ?Ht2, ?Hd1, ?Hd2, ?Hc1, ?Hc2; done).
Qed.

(** X16. What [save_env] writes, [load_env] reads back: after a save
    the file gives the three entries their stripped values again,
    whatever they held before, provided each value fits on one line (an
    "=" or a "#" inside a value does no harm). *)
Theorem load_saved_env e confirm text e' :
  save_env e confirm = Some text →
  one_line (token_entry e) → one_line (db_entry e) → one_line (csv_entry e) →
  load_env (Some text) e'
  = {| token_entry := strip (token_entry e);
       db_entry := strip (db_entry e);
       csv_entry := strip (csv_entry e) |}.
Proof.
  intros Hs Ht Hd Hc. unfold save_env in Hs.
  destruct (_ && negb confirm); [done|]. injection Hs as <-.
  unfold load_env.
  rewrite file_lines_env_text by by apply one_line_strip.
  cbn [env_lines].
  rewrite !env_line_assign by (done || apply strip_idemp).
  cbn [mbind result_bind env_lines].
  rewrite !env_line_assign by (done || apply strip_idemp).
  cbn [mbind result_bind env_lines].
  rewrite !env_line_assign by (done || apply strip_idemp).
  cbn [mbind result_bind]. f_equal; by simplify_map_eq.
Qed.

Lemma load_saved_env_witness :
  load_env (Some (env_text "secret=" "db1" "/home/me/My Library.csv"))
    {| token_entry := "old"; db_entry := "old"; csv_entry := "old" |}
  = {| token_entry := "secret="; db_entry := "db1";
       csv_entry := "/home/me/My Library.csv" |}.
Proof.
  apply (load_saved_env
           {| token_entry := " secret= "; db_entry := "db1";
              csv_entry := "/home/me/My Library.csv" |} false);
    by vm_compute.
Defined.

Lemma contains_lstrip_eq c s :
  is_space c = false → contains c (lstrip s) = contains c s.
Proof.
  intros Hc. induction s as [|a s IH]; [done|]. simpl.
  destruct (is_space a) eqn:Ea; [|done]. rewrite IH.
  destruct (ascii_eqb a c) eqn:E; [|done].
  apply ascii_eqb_true in E as ->. congruence.
Qed.

Lemma contains_rstrip_eq c s :
  is_space c = false → contains c (rstrip s) = contains c s.
Proof.
  intros Hc. induction s as [|a s IH]; [done|]. simpl.
  destruct (is_space a && str_empty (rstrip s)) eqn:E; simpl;
    [|by rewrite IH].
  apply andb_true_iff in E as [Ea Er]. apply str_empty_true in Er.
  rewrite <-IH, Er. simpl.
  destruct (ascii_eqb a c) eqn:E; [|done].
  apply ascii_eqb_true in E as ->. congruence.
Qed.

Lemma env_line_total vals line :
  ∃ vals', env_line vals line = Returned vals' ∧ dom vals ⊆ dom vals'.
Proof.
  unfold env_line.
  destruct (negb (str_empty (strip line)) && contains "=" line
            && negb (startswith "#" line)) eqn:E; [|by eexists].
  apply andb_true_iff in E as [[_ Hc]%andb_true_iff _].
  assert (contains "=" (strip line) = true) as Hs.
  { unfold strip. by rewrite contains_rstrip_eq, contains_lstrip_eq. }
  destruct (split1_contains _ _ Hs) as (k & v & -> & _). simpl.
  eexists. split; [done|]. rewrite dom_insert_L. set_solver.
Qed.

(** X17. Reading the configuration never fails on the content of the
    file: a line that is taken as an assignment always splits into a
    key and a value at its first "=", and a line never removes a key
    that an earlier line set. *)
Theorem env_lines_total lines vals :
  ∃ vals', env_lines lines vals = Returned vals' ∧ dom vals ⊆ dom vals'.
Proof.
  revert vals. induction lines as [|line lines IH]; intros vals.
  - by eexists.
  - cbn [env_lines]. destruct (env_line_total vals line) as (v1 & -> & H1).
    cbn [mbind result_bind]. destruct (IH v1) as (v2 & -> & H2).
    exists v2. split; [done|]. set_solver.
Qed.

(** * The sync thread *)

(** X18. An HTTP error never gets one of the two specific error boxes:
    the response of an [HTTPError] is false as a truth value, so the
    tests for 401 and 404 fail and the box is always the general
    "Sync Error" with the text of the exception, also for the status
    codes 401 and 404. *)
Theorem http_error_dialog_is_general (status_code : response_info → Z) msg
    response :
  sync_error_dialog status_code (RequestException msg (Some response))
  = ("Sync Error", "Error: " +:+ msg).
Proof.
  unfold sync_error_dialog, response_truth.
  destruct (status_code response =? 401) eqn:E1.
  { apply Z.eqb_eq in E1 as ->. done. }
  destruct (status_code response =? 404) eqn:E2.
  { apply Z.eqb_eq in E2 as ->. done. }
  by rewrite !andb_false_r.
Qed.


